(** * gyaml: path resolution over a decoded YAML tree

    A shallow embedding of [gyaml.go] (package [gyaml]) and the properties
    of its path resolver, query evaluator and coercion layer.

    Go strings are byte strings: they are modelled by [string] (a list of
    8-bit [ascii]).  Go's [int] is taken to be 64 bits wide and is carried
    as a [Z]; [float64] is the kernel's binary64 type [float].  The YAML
    codec ([gopkg.in/yaml.v3]) and the float formatting and parsing
    routines of [strconv]/[fmt] are libraries outside the package: they
    enter as the fields of a record [GoLib] over which every definition and
    theorem is parameterised. *)

From Stdlib Require Import ZArith List String Ascii Bool Lia Wf_nat.
From Stdlib Require Import Floats.
From Stdlib Require Import DecimalString.
From Stdlib Require DecimalFacts DecimalPos.
Import ListNotations.

Local Open Scope string_scope.
Local Open Scope Z_scope.

(** ** Outcomes of Go code

    A Go function either returns or panics (index out of range, slice
    bounds out of range).  [Diverge] is the model's own third outcome: the
    recursion budget of [getByPath_fuel] ran out. *)

Inductive outcome (A : Type) : Type :=
| Ok (a : A)
| Panic
| Diverge.

Arguments Ok {A} a.
Arguments Panic {A}.
Arguments Diverge {A}.

Definition bind {A B : Type} (m : outcome A) (k : A -> outcome B) : outcome B :=
  match m with
  | Ok a => k a
  | Panic => Panic
  | Diverge => Diverge
  end.

Notation "x <- m ;; k" := (bind m (fun x => k))
  (at level 61, m at next level, right associativity).

(** ** Package [strings] *)

Module strings.

(** [len(s)] as a Go [int]. *)
Definition len (s : string) : Z := Z.of_nat (String.length s).

(** [strings.HasPrefix(s, p)]. *)
Fixpoint HasPrefix (s p : string) {struct p} : bool :=
  match p with
  | EmptyString => true
  | String b p' =>
      match s with
      | EmptyString => false
      | String a s' => Ascii.eqb a b && HasPrefix s' p'
      end
  end.

Fixpoint rev_acc (s acc : string) : string :=
  match s with
  | EmptyString => acc
  | String c s' => rev_acc s' (String c acc)
  end.

Definition rev (s : string) : string := rev_acc s EmptyString.

(** [strings.HasSuffix(s, p)]. *)
Definition HasSuffix (s p : string) : bool := HasPrefix (rev s) (rev p).

(** [strings.Index(s, sep)]: the byte offset of the first occurrence. *)
Fixpoint Index (s sep : string) : option nat :=
  if HasPrefix s sep then Some O
  else match s with
       | EmptyString => None
       | String _ s' => option_map S (Index s' sep)
       end.

(** [strings.Contains(s, sep)]. *)
Definition Contains (s sep : string) : bool :=
  match Index s sep with Some _ => true | None => false end.

(** [strings.Split(s, sep)] for a one-byte separator. *)
Fixpoint Split (s : string) (sep : ascii) : list string :=
  match s with
  | EmptyString => [EmptyString]
  | String c s' =>
      if Ascii.eqb c sep then EmptyString :: Split s' sep
      else match Split s' sep with
           | [] => [String c EmptyString]
           | p :: ps => String c p :: ps
           end
  end.

(** [strings.Join(parts, sep)]. *)
Fixpoint Join (parts : list string) (sep : string) : string :=
  match parts with
  | [] => EmptyString
  | [p] => p
  | p :: ps => p ++ sep ++ Join ps sep
  end.

(** [strings.SplitN(s, sep, 2)] for a non-empty separator: cut at the
    first occurrence, or the whole string alone. *)
Definition SplitN2 (s sep : string) : list string :=
  match Index s sep with
  | Some i => [String.substring O i s;
               String.substring (i + String.length sep)
                                (String.length s - (i + String.length sep)) s]
  | None => [s]
  end.

(** The bytes [unicode.IsSpace] accepts below [utf8.RuneSelf]:
    tab, line feed, vertical tab, form feed, carriage return, space. *)
Definition asciiSpace (c : ascii) : bool :=
  let n := nat_of_ascii c in
  ((9 <=? n) && (n <=? 13))%nat || (n =? 32)%nat.

(** The UTF-8 encodings of U+0085 and U+00A0. *)
Definition space2 (a b : ascii) : bool :=
  (nat_of_ascii a =? 194)%nat
  && ((nat_of_ascii b =? 133)%nat || (nat_of_ascii b =? 160)%nat).

(** The UTF-8 encodings of U+1680, U+2000..U+200A, U+2028, U+2029,
    U+202F, U+205F and U+3000. *)
Definition space3 (a b c : ascii) : bool :=
  let x := nat_of_ascii a in
  let y := nat_of_ascii b in
  let z := nat_of_ascii c in
  ((x =? 225) && (y =? 154) && (z =? 128))%nat
  || ((x =? 226) && (y =? 128)
      && (((128 <=? z) && (z <=? 138)) || (z =? 168) || (z =? 169) || (z =? 175)))%nat
  || ((x =? 226) && (y =? 129) && (z =? 159))%nat
  || ((x =? 227) && (y =? 128) && (z =? 128))%nat.

(** [strings.TrimLeftFunc(s, unicode.IsSpace)]: runes are decoded from
    the front, so a white-space rune is one of the encodings above. *)
Fixpoint trimLeftSpace (s : string) : string :=
  match s with
  | EmptyString => s
  | String a s1 =>
      if asciiSpace a then trimLeftSpace s1
      else match s1 with
           | EmptyString => s
           | String b s2 =>
               if space2 a b then trimLeftSpace s2
               else match s2 with
                    | EmptyString => s
                    | String c s3 =>
                        if space3 a b c then trimLeftSpace s3 else s
                    end
           end
  end.

(** [strings.TrimRightFunc(s, unicode.IsSpace)], on the reversed string:
    the last rune is a white-space rune exactly when the string ends in
    one of the encodings. *)
Fixpoint trimLeftSpaceRev (s : string) : string :=
  match s with
  | EmptyString => s
  | String c s1 =>
      if asciiSpace c then trimLeftSpaceRev s1
      else match s1 with
           | EmptyString => s
           | String b s2 =>
               if space2 b c then trimLeftSpaceRev s2
               else match s2 with
                    | EmptyString => s
                    | String a s3 =>
                        if space3 a b c then trimLeftSpaceRev s3 else s
                    end
           end
  end.

(** [strings.TrimSpace(s)]. *)
Definition TrimSpace (s : string) : string :=
  rev (trimLeftSpaceRev (rev (trimLeftSpace s))).

Definition inCutset (cutset : string) (c : ascii) : bool :=
  match String.index O (String c EmptyString) cutset with
  | Some _ => true
  | None => false
  end.

Fixpoint trimLeftBytes (cutset s : string) : string :=
  match s with
  | EmptyString => s
  | String c s' => if inCutset cutset c then trimLeftBytes cutset s' else s
  end.

(** [strings.Trim(s, cutset)] for a cutset of ASCII bytes. *)
Definition Trim (s cutset : string) : string :=
  rev (trimLeftBytes cutset (rev (trimLeftBytes cutset s))).

(** The ASCII path of [strings.ToLower]: every byte is below
    [utf8.RuneSelf], and the upper-case letters are shifted. *)
Fixpoint isASCII (s : string) : bool :=
  match s with
  | EmptyString => true
  | String c s' => (nat_of_ascii c <? 128)%nat && isASCII s'
  end.

Definition isUpper (c : ascii) : bool :=
  let n := nat_of_ascii c in ((65 <=? n) && (n <=? 90))%nat.

Definition lowerByte (c : ascii) : ascii :=
  if isUpper c then ascii_of_nat (nat_of_ascii c + 32) else c.

Fixpoint lowerBytes (s : string) : string :=
  match s with
  | EmptyString => EmptyString
  | String c s' => String (lowerByte c) (lowerBytes s')
  end.

(** [strings.ToLower(s)]; [mapLower] is [strings.Map(unicode.ToLower, s)],
    which the function falls back on when a byte is not ASCII. *)
Definition ToLower (mapLower : string -> string) (s : string) : string :=
  if isASCII s then lowerBytes s else mapLower s.

End strings.

(** ** Package [strconv] (integers) *)

Module strconv.

Inductive NumError : Type := ErrSyntax | ErrRange.

Definition maxUint64 : Z := 2 ^ 64 - 1.
Definition maxInt64 : Z := 2 ^ 63 - 1.
Definition minInt64 : Z := - 2 ^ 63.

Definition isDigit (c : ascii) : bool :=
  let n := nat_of_ascii c in ((48 <=? n) && (n <=? 57))%nat.

Definition digitVal (c : ascii) : Z := Z.of_nat (nat_of_ascii c) - 48.

(** The digit loop of [ParseUint(s, 10, 64)]: a byte that is no decimal
    digit is a syntax error, and the loop returns at the first overflow
    without reading further. *)
Fixpoint parseUintLoop (s : string) (n : Z) : Z * option NumError :=
  match s with
  | EmptyString => (n, None)
  | String c s' =>
      if negb (isDigit c) then (0, Some ErrSyntax)
      else if maxUint64 / 10 + 1 <=? n then (maxUint64, Some ErrRange)
      else
        let n1 := n * 10 + digitVal c in
        if maxUint64 <? n1 then (maxUint64, Some ErrRange)
        else parseUintLoop s' n1
  end.

(** [strconv.ParseUint(s, 10, 64)]. *)
Definition ParseUint (s : string) : Z * option NumError :=
  match s with
  | EmptyString => (0, Some ErrSyntax)
  | _ => parseUintLoop s 0
  end.

(** [strconv.ParseInt(s, 10, 64)]. *)
Definition ParseInt (s : string) : Z * option NumError :=
  match s with
  | EmptyString => (0, Some ErrSyntax)
  | String c s' =>
      let neg := Ascii.eqb c "-" in
      let digits := if Ascii.eqb c "+" || neg then s' else s in
      let '(un, err) := ParseUint digits in
      match err with
      | Some ErrSyntax => (0, Some ErrSyntax)
      | _ =>
          let cutoff := 2 ^ 63 in
          if negb neg && (cutoff <=? un) then (cutoff - 1, Some ErrRange)
          else if neg && (cutoff <? un) then (- cutoff, Some ErrRange)
          else (if neg then - un else un, None)
      end
  end.

(** The fast path of [strconv.Atoi] (strings of 1 to 18 bytes). *)
Fixpoint atoiLoop (s : string) (n : Z) : option Z :=
  match s with
  | EmptyString => Some n
  | String c s' =>
      if isDigit c then atoiLoop s' (n * 10 + digitVal c) else None
  end.

(** [strconv.Atoi(s)] with a 64-bit [int]: [None] stands for a non-nil
    error. *)
Definition Atoi (s : string) : option Z :=
  let sLen := String.length s in
  if ((0 <? sLen) && (sLen <? 19))%nat then
    match s with
    | EmptyString => None
    | String c s' =>
        let signed := Ascii.eqb c "-" || Ascii.eqb c "+" in
        let digits := if signed then s' else s in
        if signed && (String.length digits <? 1)%nat then None
        else match atoiLoop digits 0 with
             | Some n => Some (if Ascii.eqb c "-" then - n else n)
             | None => None
             end
    end
  else
    match ParseInt s with
    | (i64, None) => Some i64
    | (_, Some _) => None
    end.

(** [strconv.FormatInt(v, 10)]. *)
Definition FormatInt (v : Z) : string :=
  NilZero.string_of_int (Z.to_int v).

(** [strconv.FormatUint(v, 10)]. *)
Definition FormatUint (v : Z) : string :=
  NilZero.string_of_uint (N.to_uint (Z.to_N v)).

(** [strconv.ParseBool(str)]: the value, and whether the error is nil. *)
Definition ParseBool (str : string) : bool * bool :=
  if String.eqb str "1" || String.eqb str "t" || String.eqb str "T"
     || String.eqb str "TRUE" || String.eqb str "true" || String.eqb str "True"
  then (true, true)
  else if String.eqb str "0" || String.eqb str "f" || String.eqb str "F"
          || String.eqb str "FALSE" || String.eqb str "false"
          || String.eqb str "False"
  then (false, true)
  else (false, false).

End strconv.

(** ** Checked indexing

    Go panics on an index or a slice bound out of range. *)

Definition sliceLen {A : Type} (l : list A) : Z := Z.of_nat (List.length l).

(** [l[lo:]] *)
Definition sliceFrom {A : Type} (l : list A) (lo : Z) : outcome (list A) :=
  if (0 <=? lo) && (lo <=? sliceLen l) then Ok (skipn (Z.to_nat lo) l) else Panic.

(** [l[i]] *)
Definition sliceIndex {A : Type} (l : list A) (i : Z) : outcome A :=
  if (0 <=? i) && (i <? sliceLen l) then
    match nth_error l (Z.to_nat i) with
    | Some x => Ok x
    | None => Panic
    end
  else Panic.

(** [s[lo:hi]] *)
Definition strSlice (s : string) (lo hi : Z) : outcome string :=
  if (0 <=? lo) && (lo <=? hi) && (hi <=? strings.len s) then
    Ok (String.substring (Z.to_nat lo) (Z.to_nat (hi - lo)) s)
  else Panic.

(** ** The decoded document

    The dynamic values an [interface{}] holds in this package.  The
    numeric cases carry the dynamic type the type switches of
    [makeResult] and [compareNumbers] tell apart. *)

Inductive intKind : Type := KInt | KInt8 | KInt16 | KInt32 | KInt64.
Inductive uintKind : Type := KUint | KUint8 | KUint16 | KUint32 | KUint64.

#[warnings="-register-all"]
Inductive tree : Type :=
| TNil                                   (* the nil interface *)
| TBool (b : bool)
| TString (s : string)
| TInt (k : intKind) (n : Z)
| TUint (k : uintKind) (n : Z)
| TFloat32 (f : float)
| TFloat64 (f : float)
| TSlice (l : list tree)                 (* []interface{} *)
| TMap (m : list (string * tree))        (* map[string]interface{} *)
| TMapAny (m : list (tree * tree))       (* map[interface{}]interface{} *)
| TOther (code : Z).                     (* any other dynamic type, e.g. time.Time *)

(** [v[key]] on a [map[string]interface{}]. *)
Fixpoint mapLookup (key : string) (m : list (string * tree)) : option tree :=
  match m with
  | [] => None
  | (k, v) :: m' => if String.eqb k key then Some v else mapLookup key m'
  end.

(** [v[key]] on a [map[interface{}]interface{}] with a string key: only an
    entry whose key has dynamic type string and the same bytes is equal. *)
Fixpoint mapAnyLookup (key : string) (m : list (tree * tree)) : option tree :=
  match m with
  | [] => None
  | (TString k, v) :: m' => if String.eqb k key then Some v else mapAnyLookup key m'
  | _ :: m' => mapAnyLookup key m'
  end.

(** ** [float64] conversions *)

(** [float64(v)] of an integer: round to nearest, ties to even. *)
Definition float64_of_Z (n : Z) : float :=
  SF2Prim (binary_normalize prec emax n 0 false).

(** The integer part of a finite [float64], [None] for NaN and the
    infinities. *)
Definition truncate (f : float) : option Z :=
  match Prim2SF f with
  | S754_zero _ => Some 0
  | S754_finite s m e =>
      let a := if 0 <=? e then Z.shiftl (Z.pos m) e else Z.shiftr (Z.pos m) (- e) in
      Some (if s then - a else a)
  | _ => None
  end.

(** ** Type and Result *)

Module Ty.
Inductive t : Type := Null | False | Number | String | True | YAML.

Definition eqb (a b : t) : bool :=
  match a, b with
  | Null, Null | False, False | Number, Number
  | String, String | True, True | YAML, YAML => true
  | _, _ => false
  end.
End Ty.

Record Result : Type := mkResult {
  Type_ : Ty.t;
  Raw : string;
  Str : string;
  Num : float;
  Index : Z
}.

(** The zero value [Result{}], which is also [Result{Type: Null}]. *)
Definition zeroResult : Result := mkResult Ty.Null "" "" 0%float 0.

Definition withType (t : Ty.t) : Result := mkResult t "" "" 0%float 0.

(** ** Libraries outside the package *)

Record GoLib : Type := {
  (** [yaml.Unmarshal([]byte(s), &v)] for [v] an [interface{}]: the decoded
      tree, or [None] for a non-nil error. *)
  yaml_Unmarshal : string -> option tree;
  (** [yaml.Marshal(v)]: the text, or [None] for a non-nil error. *)
  yaml_Marshal : tree -> option string;
  (** [strconv.ParseFloat(s, 64)]: the value and the error. *)
  ParseFloat : string -> float * option strconv.NumError;
  (** [strconv.FormatFloat(f, fmt, prec, bitSize)]. *)
  FormatFloat : float -> ascii -> Z -> Z -> string;
  (** [fmt.Sprintf] of the verb v for floats, slices, maps and other
      values. *)
  fmt_v : tree -> string;
  (** [int64(f)] and [uint64(f)] where the result type cannot represent
      the value: Go leaves the result to the implementation. *)
  int64_unrepresentable : float -> Z;
  uint64_unrepresentable : float -> Z
}.

(** ** The package *)

Section Gyaml.

Variable lib : GoLib.

(** [fmt.Sprintf] of the verb v. *)
Definition Sprint (val : tree) : string :=
  match val with
  | TNil => "<nil>"
  | TBool true => "true"
  | TBool false => "false"
  | TString v => v
  | TInt _ v => strconv.FormatInt v
  | TUint _ v => strconv.FormatUint v
  | _ => fmt_v lib val
  end.

(** [int64(f)] *)
Definition int64_of_float (f : float) : Z :=
  match truncate f with
  | Some n =>
      if (strconv.minInt64 <=? n) && (n <=? strconv.maxInt64) then n
      else int64_unrepresentable lib f
  | None => int64_unrepresentable lib f
  end.

(** [uint64(f)] *)
Definition uint64_of_float (f : float) : Z :=
  match truncate f with
  | Some n =>
      if (0 <=? n) && (n <=? strconv.maxUint64) then n
      else uint64_unrepresentable lib f
  | None => uint64_unrepresentable lib f
  end.

(** [func (t Result) Int() int64] *)
Definition Int (t : Result) : Z :=
  match Type_ t with
  | Ty.True => 1
  | Ty.String => fst (strconv.ParseInt (Str t))
  | Ty.Number =>
      let fromRaw :=
        if negb (String.eqb (Raw t) "") then
          match strconv.ParseInt (strings.TrimSpace (Raw t)) with
          | (n, None) => Some n
          | (_, Some _) => None
          end
        else None in
      match fromRaw with
      | Some n => n
      | None => int64_of_float (Num t)
      end
  | _ => 0
  end.

(** [func (t Result) Uint() uint64] *)
Definition Uint (t : Result) : Z :=
  match Type_ t with
  | Ty.True => 1
  | Ty.String => fst (strconv.ParseUint (Str t))
  | Ty.Number =>
      if PrimFloat.ltb (Num t) 0 then 0 else uint64_of_float (Num t)
  | _ => 0
  end.

(** [func (t Result) Exists() bool] *)
Definition Exists (t : Result) : bool := negb (Ty.eqb (Type_ t) Ty.Null).

(** [func (t Result) Value() interface{}]: the error of
    [yaml.Unmarshal] is dropped and the variable stays nil. *)
Definition Value (t : Result) : tree :=
  match Type_ t with
  | Ty.YAML =>
      match yaml_Unmarshal lib (Raw t) with
      | Some any => any
      | None => TNil
      end
  | Ty.False => TBool false
  | Ty.Number => TFloat64 (Num t)
  | Ty.String => TString (Str t)
  | Ty.True => TBool true
  | Ty.Null => TNil
  end.

(** [func makeResult(value interface{}) Result] *)
Definition makeResult (value : tree) : Result :=
  match value with
  | TNil => withType Ty.Null
  | TBool v => if v then withType Ty.True else withType Ty.False
  | TString v => mkResult Ty.String "" v 0%float 0
  | TInt _ v => mkResult Ty.Number (strconv.FormatInt v) "" (float64_of_Z v) 0
  | TUint _ v => mkResult Ty.Number (strconv.FormatUint v) "" (float64_of_Z v) 0
  | TFloat32 v => mkResult Ty.Number (FormatFloat lib v "g" (-1) 32) "" v 0
  | TFloat64 v => mkResult Ty.Number (FormatFloat lib v "g" (-1) 64) "" v 0
  | _ =>
      match yaml_Marshal lib value with
      | None => withType Ty.Null
      | Some raw => mkResult Ty.YAML raw "" 0%float 0
      end
  end.

(** The type switch of [compareNumbers]: the subject as a [float64], or
    [None] where the function returns 0 at once. *)
Definition subjectFloat (val : tree) : option float :=
  match val with
  | TInt KInt v => Some (float64_of_Z v)
  | TInt _ _ =>
      match strconv.ParseInt (Sprint val) with
      | (i, None) => Some (float64_of_Z i)
      | (_, Some _) => None
      end
  | TUint _ _ =>
      match strconv.ParseUint (Sprint val) with
      | (i, None) => Some (float64_of_Z i)
      | (_, Some _) => None
      end
  | TFloat32 v => Some v
  | TFloat64 v => Some v
  | _ =>
      match ParseFloat lib (Sprint val) with
      | (f, None) => Some f
      | (_, Some _) => None
      end
  end.

(** [func compareNumbers(val interface{}, expectedStr string) int] *)
Definition compareNumbers (val : tree) (expectedStr : string) : Z :=
  match subjectFloat val with
  | None => 0
  | Some valFloat =>
      match ParseFloat lib expectedStr with
      | (_, Some _) => 0
      | (expectedFloat, None) =>
          if PrimFloat.ltb expectedFloat valFloat then 1
          else if PrimFloat.ltb valFloat expectedFloat then -1
          else 0
      end
  end.

(** [func matchesCondition(val interface{}, operator, expected string) bool] *)
Definition matchesCondition (val : tree) (operator expected : string) : bool :=
  let valStr := Sprint val in
  if String.eqb operator "=" then String.eqb valStr expected
  else if String.eqb operator "!=" then negb (String.eqb valStr expected)
  else if String.eqb operator ">" then 0 <? compareNumbers val expected
  else if String.eqb operator "<" then compareNumbers val expected <? 0
  else if String.eqb operator ">=" then 0 <=? compareNumbers val expected
  else if String.eqb operator "<=" then compareNumbers val expected <=? 0
  else false.

(** The cutset of the [strings.Trim] call: a double and a single quote. *)
Definition quotes : string :=
  String (ascii_of_nat 34) (String (ascii_of_nat 39) EmptyString).

Definition operators : list string := [">="; "<="; "!="; ">"; "<"; "="].

(** The first loop of [handleArrayQuery]: the first operator of the
    list the query contains. *)
Fixpoint findOperator (ops : list string) (query : string)
  : string * string * string :=
  match ops with
  | [] => ("", "", "")
  | op :: ops' =>
      if strings.Contains query op then
        match strings.SplitN2 query op with
        | [k; v] =>
            (strings.TrimSpace k, op, strings.Trim (strings.TrimSpace v) quotes)
        | _ => findOperator ops' query
        end
      else findOperator ops' query
  end.

(** The loop of [handleArrayQuery] over the elements. *)
Fixpoint firstMatch (arr : list tree) (key operator value : string) : Result :=
  match arr with
  | [] => withType Ty.Null
  | item :: arr' =>
      match item with
      | TMap obj =>
          match mapLookup key obj with
          | Some val =>
              if matchesCondition val operator value then makeResult item
              else firstMatch arr' key operator value
          | None => firstMatch arr' key operator value
          end
      | _ =>
          if String.eqb key "" && negb (String.eqb operator "")
             && matchesCondition item operator value
          then makeResult item
          else firstMatch arr' key operator value
      end
  end.

(** [func handleArrayQuery(current interface{}, query string) Result] *)
Definition handleArrayQuery (current : tree) (query : string) : Result :=
  match current with
  | TSlice arr =>
      let '(key, operator, value) := findOperator operators query in
      let parsed : option (string * string * string) :=
        if String.eqb operator "" then
          if strings.Contains query "=" then
            match strings.SplitN2 query "=" with
            | [k; v] =>
                Some (strings.TrimSpace k, "=",
                      strings.Trim (strings.TrimSpace v) quotes)
            | _ => Some (key, operator, value)
            end
          else None
        else Some (key, operator, value) in
      match parsed with
      | None => withType Ty.Null
      | Some (key, operator, value) => firstMatch arr key operator value
      end
  | _ => withType Ty.Null
  end.

(** The comma-ok assertion [current.(map[string]interface{})] followed
    by the lookup of [key]. *)
Definition stringMapLookup (current : tree) (key : string) : option tree :=
  match current with
  | TMap obj => mapLookup key obj
  | _ => None
  end.

(** The tree a matched element is resolved further from: a container is
    decoded again from its text ([None] for a decoding error), any
    other result gives its [Value]. *)
Definition reparse (result : Result) : option tree :=
  match Type_ result with
  | Ty.YAML => yaml_Unmarshal lib (Raw result)
  | _ => Some (Value result)
  end.

Section Recursion.

(** The calls of [getByPath] to itself, directly and through
    [handleArrayOperation]. *)
Variable getByPath_rec : tree -> string -> outcome Result.

(** The loop of [handleArrayOperation]. *)
Fixpoint collect (arr : list tree) (path : string) (results : list tree)
  : outcome (list tree) :=
  match arr with
  | [] => Ok results
  | item :: arr' =>
      itemResult <- getByPath_rec item path ;;
      if Exists itemResult
      then collect arr' path (results ++ [Value itemResult])
      else collect arr' path results
  end.

(** The body of [handleArrayOperation]. *)
Definition handleArrayOperation_body (current : tree) (path : string)
  : outcome Result :=
  match current with
  | TSlice arr =>
      if String.eqb path "" then Ok (makeResult (TSlice arr))
      else
        results <- collect arr path [] ;;
        Ok (makeResult (TSlice results))
  | _ => Ok (withType Ty.Null)
  end.

(** The loop of [getByPath] over [parts]: [rest] is what is left to
    visit, from index [i] on. *)
Fixpoint walk (parts : list string) (i : Z) (rest : list string)
         (current : tree) {struct rest} : outcome Result :=
  match rest with
  | [] => Ok (makeResult current)
  | part :: rest' =>
      if String.eqb part "" then walk parts (i + 1) rest' current
      else if String.eqb part "#" then
        if i =? sliceLen parts - 1 then
          match current with
          | TSlice v =>
              Ok (mkResult Ty.Number "" "" (float64_of_Z (sliceLen v)) 0)
          | TMap v =>
              Ok (mkResult Ty.Number "" "" (float64_of_Z (sliceLen v)) 0)
          | _ => Ok (withType Ty.Null)
          end
        else
          remaining <- sliceFrom parts (i + 1) ;;
          handleArrayOperation_body current (strings.Join remaining ".")
      else if strings.HasPrefix part "#(" && strings.HasSuffix part ")" then
        query <- strSlice part 2 (strings.len part - 1) ;;
        let result := handleArrayQuery current query in
        if negb (Exists result) then Ok result
        else if i <? sliceLen parts - 1 then
          remaining <- sliceFrom parts (i + 1) ;;
          let remainingPath := strings.Join remaining "." in
          match reparse result with
          | None => Ok (withType Ty.Null)
          | Some parsed => getByPath_rec parsed remainingPath
          end
        else Ok result
      else if strings.HasPrefix part "#" && negb (String.eqb part "#") then
        match stringMapLookup current part with
        | Some v => walk parts (i + 1) rest' v
        | None =>
            remaining <- strSlice part 1 (strings.len part) ;;
            handleArrayOperation_body current remaining
        end
      else
        match strconv.Atoi part with
        | Some idx =>
            match current with
            | TSlice v =>
                if (idx <? 0) || (sliceLen v <=? idx) then Ok (withType Ty.Null)
                else
                  elem <- sliceIndex v idx ;;
                  walk parts (i + 1) rest' elem
            | _ => Ok (withType Ty.Null)
            end
        | None =>
            match current with
            | TMap v =>
                match mapLookup part v with
                | None => Ok (withType Ty.Null)
                | Some val => walk parts (i + 1) rest' val
                end
            | TMapAny v =>
                match mapAnyLookup part v with
                | None => Ok (withType Ty.Null)
                | Some val => walk parts (i + 1) rest' val
                end
            | _ => Ok (withType Ty.Null)
            end
        end
  end.

(** The body of [getByPath]. *)
Definition getByPath_body (root : tree) (path : string) : outcome Result :=
  if String.eqb path "" then
    match root with
    | TNil => Ok (withType Ty.Null)
    | TString _ | TInt _ _ | TUint _ _ | TFloat32 _ | TFloat64 _ | TBool _ =>
        Ok (makeResult root)
    | _ =>
        match yaml_Marshal lib root with
        | None => Ok (withType Ty.Null)
        | Some raw => Ok (mkResult Ty.YAML raw "" 0%float 0)
        end
    end
  else
    let parts := strings.Split path "." in
    walk parts 0 parts root.

End Recursion.

(** [getByPath] with a budget of nested calls. *)
Fixpoint getByPath_fuel (fuel : nat) (root : tree) (path : string)
  : outcome Result :=
  match fuel with
  | O => Diverge
  | S fuel' => getByPath_body (getByPath_fuel fuel') root path
  end.

(** [func getByPath(root interface{}, path string) Result]: every nested
    call is on a strictly shorter path, so the length of the path is
    budget enough ([getByPath_fuel_enough]). *)
Definition getByPath (root : tree) (path : string) : outcome Result :=
  getByPath_fuel (S (String.length path)) root path.

(** [func handleArrayOperation(current interface{}, path string) Result] *)
Definition handleArrayOperation (current : tree) (path : string)
  : outcome Result :=
  handleArrayOperation_body getByPath current path.

(** [func Get(yamlStr, path string) Result] *)
Definition Get (yamlStr path : string) : outcome Result :=
  if strings.len yamlStr =? 0 then Ok (withType Ty.Null)
  else
    match yaml_Unmarshal lib yamlStr with
    | None => Ok (withType Ty.Null)
    | Some root =>
        if strings.len path =? 0 then Ok (mkResult Ty.YAML yamlStr "" 0%float 0)
        else getByPath root path
    end.

(** [func Parse(yamlStr string) Result] *)
Definition Parse (yamlStr : string) : Result :=
  if strings.len yamlStr =? 0 then withType Ty.Null
  else
    match yaml_Unmarshal lib yamlStr with
    | None => withType Ty.Null
    | Some _ => mkResult Ty.YAML yamlStr "" 0%float 0
    end.

(** [func Valid(yamlStr string) bool] *)
Definition Valid (yamlStr : string) : bool :=
  match yaml_Unmarshal lib yamlStr with
  | Some _ => true
  | None => false
  end.

(** [func (t Result) Get(path string) Result] *)
Definition Result_Get (t : Result) (path : string) : outcome Result :=
  if negb (Ty.eqb (Type_ t) Ty.YAML) then Ok zeroResult
  else Get (Raw t) path.

End Gyaml.

Arguments Sprint lib val : simpl nomatch.

(** ** The rest of the package *)

Section Accessors.

Variable lib : GoLib.

(** [strings.Map(unicode.ToLower, s)], from the Unicode tables. *)
Variable mapLower : string -> string.

(** [func (t Result) String() string] *)
Definition Result_String (t : Result) : string :=
  match Type_ t with
  | Ty.String => Str t
  | Ty.Number =>
      if strings.len (Raw t) =? 0 then FormatFloat lib (Num t) "f" (-1) 64
      else Raw t
  | Ty.YAML => Raw t
  | Ty.True => "true"
  | Ty.False => "false"
  | Ty.Null => ""
  end.

(** [func (t Result) Bool() bool] *)
Definition Result_Bool (t : Result) : bool :=
  match Type_ t with
  | Ty.True => true
  | Ty.String =>
      let lower := strings.ToLower mapLower (Str t) in
      if String.eqb lower "true" || String.eqb lower "yes"
         || String.eqb lower "on" || String.eqb lower "1"
      then true
      else if String.eqb lower "false" || String.eqb lower "no"
              || String.eqb lower "off" || String.eqb lower "0"
              || String.eqb lower ""
      then false
      else fst (strconv.ParseBool lower)
  | Ty.Number => negb (PrimFloat.eqb (Num t) 0)
  | _ => false
  end.

(** [func (t Result) Float() float64] *)
Definition Result_Float (t : Result) : float :=
  match Type_ t with
  | Ty.True => 1%float
  | Ty.String => fst (ParseFloat lib (Str t))
  | Ty.Number => Num t
  | _ => 0%float
  end.

(** [func (t Result) Array() []Result]: [None] is the nil slice. *)
Definition Result_Array (t : Result) : option (list Result) :=
  if negb (Ty.eqb (Type_ t) Ty.YAML) then None
  else
    match yaml_Unmarshal lib (Raw t) with
    | None => None
    | Some (TSlice arr) => Some (map (makeResult lib) arr)
    | Some _ => None
    end.

(** [func (t Result) Map() map[string]Result]: [None] is the nil map; the
    entries stand in the order of the decoded mapping. *)
Definition Result_Map (t : Result) : option (list (string * Result)) :=
  if negb (Ty.eqb (Type_ t) Ty.YAML) then None
  else
    match yaml_Unmarshal lib (Raw t) with
    | None => None
    | Some (TMap obj) => Some (map (fun kv => (fst kv, makeResult lib (snd kv))) obj)
    | Some _ => None
    end.

Section Iteration.

(** The iterator is a closure: [State] is the state it works on, and the
    boolean it returns tells whether the iteration goes on. *)
Variable State : Type.
Variable iterator : State -> Result -> Result -> State * bool.

(** The loop of [ForEach] over a mapping, in the order the entries of
    the decoded mapping stand in. *)
Fixpoint forEachMap (obj : list (string * tree)) (s : State) : State :=
  match obj with
  | [] => s
  | (k, v) :: obj' =>
      let '(s', more) :=
        iterator s (mkResult Ty.String "" k 0%float 0) (makeResult lib v) in
      if more then forEachMap obj' s' else s'
  end.

(** The loop of [ForEach] over a sequence, from index [i] on. *)
Fixpoint forEachSlice (i : Z) (arr : list tree) (s : State) : State :=
  match arr with
  | [] => s
  | v :: arr' =>
      let '(s', more) :=
        iterator s (mkResult Ty.Number "" "" (float64_of_Z i) 0) (makeResult lib v) in
      if more then forEachSlice (i + 1) arr' s' else s'
  end.

(** [func (t Result) ForEach(iterator func(key, value Result) bool)] *)
Definition ForEach (t : Result) (s : State) : State :=
  if negb (Exists t) then s
  else if negb (Ty.eqb (Type_ t) Ty.YAML) then s
  else
    match yaml_Unmarshal lib (Raw t) with
    | None => s
    | Some (TMap obj) => forEachMap obj s
    | Some (TSlice arr) => forEachSlice 0 arr s
    | Some _ => s
    end.

End Iteration.

End Accessors.

(** ** The vocabulary of the statements *)

(** A segment is plain when it is not empty, holds no dot and does not
    start with [#]: the loop of [getByPath] then reads it as an index (when
    [strconv.Atoi] accepts it) or as a key. *)

Fixpoint noDot (s : string) : bool :=
  match s with
  | EmptyString => true
  | String c s' => negb (Ascii.eqb c ".") && noDot s'
  end.

Definition plainSeg (part : string) : bool :=
  negb (String.eqb part "") && negb (strings.HasPrefix part "#") && noDot part.

(** One step of the walk on a plain segment: the node it moves to, or
    [None] where the code returns the Null result. *)
Definition stepSeg (current : tree) (part : string) : option tree :=
  match strconv.Atoi part with
  | Some idx =>
      match current with
      | TSlice v =>
          if (idx <? 0) || (sliceLen v <=? idx) then None
          else nth_error v (Z.to_nat idx)
      | _ => None
      end
  | None =>
      match current with
      | TMap v => mapLookup part v
      | TMapAny v => mapAnyLookup part v
      | _ => None
      end
  end.

(** The node a list of plain segments leads to from [current]. *)
Fixpoint descend (current : tree) (segs : list string) : option tree :=
  match segs with
  | [] => Some current
  | part :: segs' =>
      match stepSeg current part with
      | Some t => descend t segs'
      | None => None
      end
  end.

Definition isMapping (t : tree) : bool :=
  match t with
  | TMap _ | TMapAny _ => true
  | _ => false
  end.

Fixpoint noByte (c : ascii) (s : string) : bool :=
  match s with
  | EmptyString => true
  | String a s' => negb (Ascii.eqb a c) && noByte c s'
  end.

(** No byte of a comparison operator other than the equals sign. *)
Definition opFree (s : string) : bool :=
  noByte "<" s && noByte ">" s && noByte "!" s.

(** The element is a mapping with string keys that has the field [k], and
    the rendering of the field by the verb v is [v]. *)
Definition fieldEquals (lib : GoLib) (k v : string) (item : tree) : bool :=
  match item with
  | TMap obj =>
      match mapLookup k obj with
      | Some val => String.eqb (Sprint lib val) v
      | None => false
      end
  | _ => false
  end.

(** The value of the key [k] in an element, for a mapping of either
    kind. *)
Definition fieldOf (k : string) (item : tree) : option tree :=
  match item with
  | TMap m => mapLookup k m
  | TMapAny m => mapAnyLookup k m
  | _ => None
  end.




(** The non-empty segments of a path. *)
Definition nonEmpty (part : string) : bool := negb (String.eqb part "").

Definition dropEmpty (parts : list string) : list string := filter nonEmpty parts.

(** The tokens whose treatment depends on whether segments follow: the
    token [#] and the tokens of the form [#(...)]. *)
Definition countsRest (part : string) : bool :=
  String.eqb part "#"
  || (strings.HasPrefix part "#(" && strings.HasSuffix part ")").

(** No token that looks at the rest of the path is followed by empty
    segments only. *)
Fixpoint restSettled (parts : list string) : bool :=
  match parts with
  | [] => true
  | part :: rest =>
      (negb (countsRest part)
       || match rest with
          | [] => true
          | _ => existsb nonEmpty rest
          end)
      && restSettled rest
  end.

(** Either side of an ordering comparison does not parse as a number. *)
Definition incomparable (lib : GoLib) (val : tree) (expected : string) : bool :=
  match subjectFloat lib val, snd (ParseFloat lib expected) with
  | Some _, None => false
  | _, _ => true
  end.

(** The value of a decimal numeral read from the left, after the
    digits that gave [acc]. *)
Fixpoint val10 (d : Decimal.uint) (acc : Z) : Z :=
  match d with
  | Decimal.Nil => acc
  | Decimal.D0 l => val10 l (10 * acc + 0)
  | Decimal.D1 l => val10 l (10 * acc + 1)
  | Decimal.D2 l => val10 l (10 * acc + 2)
  | Decimal.D3 l => val10 l (10 * acc + 3)
  | Decimal.D4 l => val10 l (10 * acc + 4)
  | Decimal.D5 l => val10 l (10 * acc + 5)
  | Decimal.D6 l => val10 l (10 * acc + 6)
  | Decimal.D7 l => val10 l (10 * acc + 7)
  | Decimal.D8 l => val10 l (10 * acc + 8)
  | Decimal.D9 l => val10 l (10 * acc + 9)
  end.

(** Every byte of the string satisfies [P]. *)
Fixpoint allBytes (P : ascii -> bool) (s : string) : bool :=
  match s with
  | EmptyString => true
  | String c s' => P c && allBytes P s'
  end.

(** A byte that prints and is no space. *)
Definition textByte (c : ascii) : bool :=
  let n := nat_of_ascii c in ((33 <=? n) && (n <? 127))%nat.

(** The entry of a map under a key, for a map of any values. *)
(* vocabulary *)
Fixpoint entryLookup {A : Type} (key : string) (m : list (string * A)) : option A :=
  match m with
  | [] => None
  | (k, v) :: m' => if String.eqb k key then Some v else entryLookup key m'
  end.

(** The key [ForEach] passes with the element at index [i]. *)
Definition indexKey (i : Z) : Result :=
  mkResult Ty.Number "" "" (float64_of_Z i) 0.

(** A loop over Results with their indices that ends when the iterator
    returns false. *)
Fixpoint visitFrom {State : Type} (iterator : State -> Result -> Result -> State * bool)
         (i : Z) (rs : list Result) (s : State) : State :=
  match rs with
  | [] => s
  | r :: rs' =>
      let '(s', more) := iterator s (indexKey i) r in
      if more then visitFrom iterator (i + 1) rs' s' else s'
  end.

(** A numeric value of the tree whose integer is in the range of its
    type. *)
Definition numericInRange (val : tree) : bool :=
  match val with
  | TInt _ v => (strconv.minInt64 <=? v) && (v <=? strconv.maxInt64)
  | TUint _ v => (0 <=? v) && (v <=? strconv.maxUint64)
  | TFloat32 _ | TFloat64 _ => true
  | _ => false
  end.

(** What [handleArrayOperation] collects from one element. *)
Definition gathered (lib : GoLib) (path : string) (item : tree) : list tree :=
  match getByPath lib item path with
  | Ok itemResult => if Exists itemResult then [Value lib itemResult] else []
  | _ => []
  end.

(** No byte of any operator. *)
Definition opByteFree (s : string) : bool := opFree s && noByte "=" s.

(** The test the loop of [handleArrayQuery] makes on one element. *)
Definition satisfies (lib : GoLib) (key operator value : string) (item : tree) : bool :=
  match item with
  | TMap obj =>
      match mapLookup key obj with
      | Some val => matchesCondition lib val operator value
      | None => false
      end
  | _ =>
      String.eqb key "" && negb (String.eqb operator "")
      && matchesCondition lib item operator value
  end.

(** ** A library instance for the closed examples

    [exampleLib] gives every field of [GoLib] a value, so that the
    theorems can be run on concrete inputs.  Its decoder, its float parser
    and its float printer agree with the Go libraries on the arguments the
    examples apply them to: the documents of [exampleDocs], integer
    literals and the word abc for [ParseFloat], small integral floats for
    [FormatFloat].  Its encoder writes a text of the tree in
    flow style, where [yaml.Marshal] writes one in block style.  Elsewhere
    the fields are ordinary total functions and no model of the
    libraries. *)

Definition dquote : string := String (ascii_of_nat 34) EmptyString.

(** Integral floats below a million print as their integer, in the format
    g with the shortest precision as in the format f. *)
Definition exFormatFloat (f : float) (fmt : ascii) (prec bitSize : Z) : string :=
  match truncate f with
  | Some n =>
      if PrimFloat.eqb (float64_of_Z n) f && (Z.abs n <? 1000000)
      then strconv.FormatInt n else ""
  | None => ""
  end.

(** A YAML emitter in flow style. *)
Fixpoint emit (t : tree) : string :=
  match t with
  | TNil => "null"
  | TBool b => if b then "true" else "false"
  | TString v => dquote ++ v ++ dquote
  | TInt _ v => strconv.FormatInt v
  | TUint _ v => strconv.FormatUint v
  | TFloat32 v | TFloat64 v => exFormatFloat v "g" (-1) 64
  | TSlice l =>
      "[" ++ (fix items (l : list tree) : string :=
                match l with
                | [] => ""
                | x :: l' =>
                    match l' with
                    | [] => emit x
                    | _ => emit x ++ ", " ++ items l'
                    end
                end) l ++ "]"
  | TMap m =>
      "{" ++ (fix entries (m : list (string * tree)) : string :=
                match m with
                | [] => ""
                | (k, v) :: m' =>
                    match m' with
                    | [] => dquote ++ k ++ dquote ++ ": " ++ emit v
                    | _ => dquote ++ k ++ dquote ++ ": " ++ emit v ++ ", " ++ entries m'
                    end
                end) m ++ "}"
  | TMapAny m =>
      "{" ++ (fix entries (m : list (tree * tree)) : string :=
                match m with
                | [] => ""
                | (k, v) :: m' =>
                    match m' with
                    | [] => emit k ++ ": " ++ emit v
                    | _ => emit k ++ ": " ++ emit v ++ ", " ++ entries m'
                    end
                end) m ++ "}"
  | TOther _ => "null"
  end.

Definition janet : tree :=
  TMap [("name", TMap [("first", TString "Janet"); ("last", TString "Prichard")]);
        ("age", TInt KInt 47)].

Definition dale : tree :=
  TMap [("first", TString "Dale"); ("last", TString "Murphy"); ("age", TInt KInt 44)].

Definition roger : tree :=
  TMap [("first", TString "Roger"); ("last", TString "Craig"); ("age", TInt KInt 68)].

(** The documents the examples decode, in flow style, each with the tree
    [yaml.Unmarshal] gives for it.  The empty document decodes without
    error and leaves the variable nil. *)
Definition exampleDocs : list (string * tree) :=
  [ ("", TNil);
    ("a: 1", TMap [("a", TInt KInt 1)]);
    ("arr: [{k: a}, {k: v}, {j: v}]",
     TMap [("arr", TSlice [TMap [("k", TString "a")];
                           TMap [("k", TString "v")];
                           TMap [("j", TString "v")]])]);
    ("arr: [{k: null}, {k: 1}]",
     TMap [("arr", TSlice [TMap [("k", TNil)]; TMap [("k", TInt KInt 1)]])]);
    ("m: {'123': x}", TMap [("m", TMap [("123", TString "x")])]);
    ("arr: [abc]", TMap [("arr", TSlice [TString "abc"])]);
    ("children: [Sara, Alex, Jack]",
     TMap [("children", TSlice [TString "Sara"; TString "Alex"; TString "Jack"])]);
    ("{name: {first: Janet, last: Prichard}, age: 47}", janet);
    ("friends: [{first: Dale, last: Murphy, age: 44}, {first: Roger, last: Craig, age: 68}]",
     TMap [("friends", TSlice [dale; roger])]);
    (emit roger, roger) ].

(** Decimal integer literals: an optional sign and digits. *)
Definition exParseFloat (s : string) : float * option strconv.NumError :=
  let '(neg, digits) :=
    match s with
    | String c s' =>
        if Ascii.eqb c "-" then (true, s')
        else if Ascii.eqb c "+" then (false, s')
        else (false, s)
    | EmptyString => (false, s)
    end in
  match digits with
  | EmptyString => (0%float, Some strconv.ErrSyntax)
  | _ =>
      match strconv.atoiLoop digits 0 with
      | Some n =>
          let f := float64_of_Z (if neg then - n else n) in
          if PrimFloat.is_infinity f then (f, Some strconv.ErrRange) else (f, None)
      | None => (0%float, Some strconv.ErrSyntax)
      end
  end.

(** The verb v on slices and floats. *)
Fixpoint exSprint (t : tree) : string :=
  match t with
  | TNil => "<nil>"
  | TBool b => if b then "true" else "false"
  | TString v => v
  | TInt _ v => strconv.FormatInt v
  | TUint _ v => strconv.FormatUint v
  | TFloat32 v | TFloat64 v => exFormatFloat v "g" (-1) 64
  | TSlice l =>
      "[" ++ (fix items (l : list tree) : string :=
                match l with
                | [] => ""
                | x :: l' =>
                    match l' with
                    | [] => exSprint x
                    | _ => exSprint x ++ " " ++ items l'
                    end
                end) l ++ "]"
  | _ => ""
  end.

Definition exampleLib : GoLib := {|
  yaml_Unmarshal := fun s => mapLookup s exampleDocs;
  yaml_Marshal := fun t => Some (emit t);
  ParseFloat := exParseFloat;
  FormatFloat := exFormatFloat;
  fmt_v := exSprint;
  (* one fixed value each *)
  int64_unrepresentable := fun _ => - 2 ^ 63;
  uint64_unrepresentable := fun _ => 2 ^ 63
|}.

(** [exampleLib] with a decoder that also knows a document whose root is
    a sequence. *)
Definition sequenceLib : GoLib := {|
  yaml_Unmarshal := fun s =>
    if String.eqb s "[Sara, Alex, Jack]"
    then Some (TSlice [TString "Sara"; TString "Alex"; TString "Jack"])
    else yaml_Unmarshal exampleLib s;
  yaml_Marshal := yaml_Marshal exampleLib;
  ParseFloat := ParseFloat exampleLib;
  FormatFloat := FormatFloat exampleLib;
  fmt_v := fmt_v exampleLib;
  int64_unrepresentable := int64_unrepresentable exampleLib;
  uint64_unrepresentable := uint64_unrepresentable exampleLib
|}.

(** ** Strings: splitting and joining *)

Lemma Split_nonempty (s : string) (sep : ascii) : strings.Split s sep <> [].
Proof.
  destruct s as [|c s]; simpl; [discriminate|].
  destruct (Ascii.eqb c sep); [discriminate|].
  destruct (strings.Split s sep); discriminate.
Qed.

Lemma Join_cons (p q : string) (ps : list string) (sep : string) :
  strings.Join (p :: q :: ps) sep = (p ++ sep ++ strings.Join (q :: ps) sep)%string.
Proof. reflexivity. Qed.

Lemma Join_Split (s : string) : strings.Join (strings.Split s ".") "." = s.
Proof.
  induction s as [|c s IH]; [reflexivity|].
  cbn [strings.Split].
  destruct (Ascii.eqb_spec c ".") as [->|Hc].
  - pose proof (Split_nonempty s ".") as Hne.
    destruct (strings.Split s ".") as [|q qs]; [contradiction|].
    rewrite Join_cons, IH. reflexivity.
  - pose proof (Split_nonempty s ".") as Hne.
    destruct (strings.Split s ".") as [|q qs]; [contradiction|].
    destruct qs as [|q' qs].
    + simpl in *. now rewrite IH.
    + rewrite Join_cons. rewrite Join_cons in IH. rewrite <- IH. reflexivity.
Qed.

Lemma string_length_app (a b : string) :
  String.length (a ++ b) = (String.length a + String.length b)%nat.
Proof. induction a; simpl; auto. Qed.

Lemma Join_length_cons (p : string) (ps : list string) :
  ps <> [] ->
  String.length (strings.Join (p :: ps) ".")
  = (String.length p + 1 + String.length (strings.Join ps "."))%nat.
Proof.
  destruct ps as [|q qs]; [contradiction|intros _].
  rewrite Join_cons, !string_length_app. simpl. lia.
Qed.

Lemma Join_length_head (p : string) (ps : list string) :
  (String.length p <= String.length (strings.Join (p :: ps) "."))%nat.
Proof.
  destruct ps as [|q qs]; [simpl; lia|].
  rewrite Join_length_cons by easy. lia.
Qed.

Lemma Join_length_tail (p : string) (ps : list string) :
  (String.length (strings.Join ps ".") <= String.length (strings.Join (p :: ps) "."))%nat.
Proof.
  destruct ps as [|q qs]; [simpl; lia|].
  rewrite (Join_length_cons p (q :: qs)) by easy. lia.
Qed.

Lemma Join_length_app (pre l : list string) :
  (String.length (strings.Join l ".") <= String.length (strings.Join (pre ++ l) "."))%nat.
Proof.
  induction pre as [|p pre IH]; [simpl; lia|].
  simpl app. eapply Nat.le_trans; [exact IH|]. apply Join_length_tail.
Qed.

(** ** Checked indexing never fails inside its guards *)

Lemma sliceLen_app {A : Type} (l1 l2 : list A) :
  sliceLen (l1 ++ l2) = sliceLen l1 + sliceLen l2.
Proof. unfold sliceLen. rewrite length_app. lia. Qed.

Lemma sliceLen_nonneg {A : Type} (l : list A) : 0 <= sliceLen l.
Proof. unfold sliceLen. lia. Qed.

Lemma sliceFrom_app {A : Type} (pre : list A) (x : A) (rest : list A) :
  sliceFrom (pre ++ x :: rest) (sliceLen pre + 1) = Ok rest.
Proof.
  unfold sliceFrom.
  assert (Hlen : sliceLen (pre ++ x :: rest) = sliceLen pre + 1 + sliceLen rest).
  { unfold sliceLen. rewrite length_app. cbn [List.length]. lia. }
  rewrite Hlen.
  pose proof (sliceLen_nonneg pre). pose proof (sliceLen_nonneg rest).
  destruct (Z.leb_spec 0 (sliceLen pre + 1)); [|lia].
  destruct (Z.leb_spec (sliceLen pre + 1) (sliceLen pre + 1 + sliceLen rest)); [|lia].
  simpl. f_equal.
  replace (Z.to_nat (sliceLen pre + 1)) with (List.length pre + 1)%nat
    by (unfold sliceLen; lia).
  rewrite skipn_app, skipn_all2 by lia.
  replace (List.length pre + 1 - List.length pre)%nat with 1%nat by lia.
  reflexivity.
Qed.

Lemma last_index_iff {A : Type} (pre : list A) (x : A) (rest : list A) :
  (sliceLen pre =? sliceLen (pre ++ x :: rest) - 1) = true <-> rest = [].
Proof.
  rewrite sliceLen_app, Z.eqb_eq. unfold sliceLen. cbn [List.length].
  destruct rest; cbn [List.length]; split; intros; try lia; congruence.
Qed.

Lemma sliceIndex_in_range {A : Type} (l : list A) (i : Z) :
  (i <? 0) || (sliceLen l <=? i) = false ->
  exists x, sliceIndex l i = Ok x /\ nth_error l (Z.to_nat i) = Some x.
Proof.
  intros H. apply orb_false_iff in H as [H1 H2].
  apply Z.ltb_ge in H1. apply Z.leb_gt in H2.
  unfold sliceIndex.
  destruct (Z.leb_spec 0 i); [|lia]. destruct (Z.ltb_spec i (sliceLen l)); [|lia].
  simpl. destruct (nth_error l (Z.to_nat i)) eqn:E; [eauto|].
  apply nth_error_None in E. unfold sliceLen in *. lia.
Qed.

Lemma substring_all (s : string) : String.substring 0 (String.length s) s = s.
Proof. induction s; simpl; congruence. Qed.

Lemma strSlice_tail (c : ascii) (tail : string) :
  strSlice (String c tail) 1 (strings.len (String c tail)) = Ok tail.
Proof.
  unfold strSlice, strings.len. cbn [String.length].
  destruct (Z.leb_spec 1 (Z.of_nat (S (String.length tail)))); [|lia].
  rewrite Z.leb_refl. cbn [Z.leb andb Z.compare].
  replace (Z.to_nat (Z.of_nat (S (String.length tail)) - 1))
    with (String.length tail) by lia.
  change (Z.to_nat 1) with 1%nat. cbn [String.substring].
  now rewrite substring_all.
Qed.

(** A token of the form [#(...)] has at least three bytes, so the slice
    that removes the delimiters is within bounds. *)
Lemma query_slice_ok (part : string) :
  strings.HasPrefix part "#(" = true ->
  strings.HasSuffix part ")" = true ->
  strSlice part 2 (strings.len part - 1)
  = Ok (String.substring 2 (String.length part - 3) part).
Proof.
  unfold strings.HasPrefix, strings.HasSuffix. intros Hp Hs.
  destruct part as [|a [|b [|c tail]]]; cbn [strings.HasPrefix] in Hp;
    try discriminate.
  - now rewrite andb_false_r in Hp.
  - apply andb_prop in Hp as [Ha Hb]. apply andb_prop in Hb as [Hb _].
    apply Ascii.eqb_eq in Ha, Hb. subst. vm_compute in Hs. discriminate.
  - unfold strSlice, strings.len. cbn [String.length].
    set (n := String.length tail).
    destruct (Z.leb_spec 2 (Z.of_nat (S (S (S n))) - 1)); [|lia].
    destruct (Z.leb_spec (Z.of_nat (S (S (S n))) - 1) (Z.of_nat (S (S (S n))))); [|lia].
    cbn [Z.leb andb Z.compare]. do 2 f_equal. lia.
Qed.

Section WalkFacts.

Variable lib : GoLib.

Lemma collect_ext (rec1 rec2 : tree -> string -> outcome Result) (path : string) :
  (forall t, rec1 t path = rec2 t path) ->
  forall arr acc, collect lib rec1 arr path acc = collect lib rec2 arr path acc.
Proof.
  intros H. induction arr as [|item arr IH]; intros acc; [reflexivity|].
  cbn [collect]. rewrite H. destruct (rec2 item path); cbn [bind]; try reflexivity.
  destruct (Exists a); apply IH.
Qed.

Lemma handleArrayOperation_body_ext
      (rec1 rec2 : tree -> string -> outcome Result) (current : tree) (path : string) :
  (forall t, rec1 t path = rec2 t path) ->
  handleArrayOperation_body lib rec1 current path
  = handleArrayOperation_body lib rec2 current path.
Proof.
  intros H. unfold handleArrayOperation_body.
  destruct current; try reflexivity.
  destruct (String.eqb path ""); [reflexivity|].
  now rewrite (collect_ext rec1 rec2 path H).
Qed.

Lemma Join_rest_lt (pre : list string) (part : string) (rest : list string) :
  rest <> [] ->
  (String.length (strings.Join rest ".")
   < String.length (strings.Join (pre ++ part :: rest) "."))%nat.
Proof.
  intros Hne.
  pose proof (Join_length_app pre (part :: rest)).
  rewrite (Join_length_cons part rest Hne) in H. lia.
Qed.

Lemma Join_part_le (pre : list string) (part : string) (rest : list string) :
  (String.length part <= String.length (strings.Join (pre ++ part :: rest) "."))%nat.
Proof.
  pose proof (Join_length_app pre (part :: rest)).
  pose proof (Join_length_head part rest). lia.
Qed.

Lemma not_last_nonempty {A : Type} (pre : list A) (x : A) (rest : list A) :
  (sliceLen pre =? sliceLen (pre ++ x :: rest) - 1) = false -> rest <> [].
Proof.
  intros H ->. assert (E : @nil A = []) by reflexivity.
  apply (last_index_iff pre x) in E. congruence.
Qed.

Lemma not_last_nonempty' {A : Type} (pre : list A) (x : A) (rest : list A) :
  (sliceLen pre <? sliceLen (pre ++ x :: rest) - 1) = true -> rest <> [].
Proof.
  intros H ->. apply Z.ltb_lt in H. rewrite sliceLen_app in H.
  unfold sliceLen in H. cbn [List.length] in H. lia.
Qed.

(** The loop only consults the nested calls on strictly shorter paths. *)
Lemma walk_ext (rec1 rec2 : tree -> string -> outcome Result) (L : nat) :
  (forall t p, (String.length p < L)%nat -> rec1 t p = rec2 t p) ->
  forall rest pre current,
    (String.length (strings.Join (pre ++ rest) ".") <= L)%nat ->
    walk lib rec1 (pre ++ rest) (sliceLen pre) rest current
    = walk lib rec2 (pre ++ rest) (sliceLen pre) rest current.
Proof.
  intros Hrec. induction rest as [|part rest IH]; intros pre current HL;
    [reflexivity|].
  assert (IH' : forall cur,
             walk lib rec1 (pre ++ part :: rest) (sliceLen pre + 1) rest cur
             = walk lib rec2 (pre ++ part :: rest) (sliceLen pre + 1) rest cur).
  { intros cur. specialize (IH (pre ++ [part])%list cur).
    rewrite <- app_assoc, sliceLen_app in IH. apply IH. exact HL. }
  cbn [walk].
  destruct (String.eqb part ""); [apply IH'|].
  destruct (String.eqb part "#").
  { destruct (sliceLen pre =? sliceLen (pre ++ part :: rest) - 1) eqn:Hlast;
      [reflexivity|].
    rewrite sliceFrom_app. cbn [bind].
    apply handleArrayOperation_body_ext. intros t. apply Hrec.
    pose proof (Join_rest_lt pre part rest (not_last_nonempty _ _ _ Hlast)). lia. }
  destruct (strings.HasPrefix part "#(" && strings.HasSuffix part ")").
  { destruct (strSlice part 2 (strings.len part - 1)); cbn [bind]; try reflexivity.
    destruct (negb (Exists (handleArrayQuery lib current a))); [reflexivity|].
    destruct (sliceLen pre <? sliceLen (pre ++ part :: rest) - 1) eqn:Hlast;
      [|reflexivity].
    rewrite sliceFrom_app. cbn [bind].
    destruct (reparse lib (handleArrayQuery lib current a)); [|reflexivity].
    apply Hrec.
    pose proof (Join_rest_lt pre part rest (not_last_nonempty' _ _ _ Hlast)). lia. }
  cbn [negb]. rewrite andb_true_r.
  destruct (strings.HasPrefix part "#") eqn:Hhash.
  { destruct (stringMapLookup current part); [apply IH'|].
    destruct part as [|c tail]; [discriminate|].
    rewrite strSlice_tail. cbn [bind].
    apply handleArrayOperation_body_ext. intros t. apply Hrec.
    pose proof (Join_part_le pre (String c tail) rest).
    cbn [String.length] in H. lia. }
  destruct (strconv.Atoi part).
  { destruct current; try reflexivity.
    destruct ((z <? 0) || (sliceLen l <=? z)); [reflexivity|].
    destruct (sliceIndex l z); cbn [bind]; try reflexivity. apply IH'. }
  destruct current; try reflexivity.
  - destruct (mapLookup part m); [apply IH'|reflexivity].
  - destruct (mapAnyLookup part m); [apply IH'|reflexivity].
Qed.

Lemma getByPath_fuel_stable (n : nat) :
  forall m root path,
    (String.length path < n)%nat -> (String.length path < m)%nat ->
    getByPath_fuel lib n root path = getByPath_fuel lib m root path.
Proof.
  induction n as [|n IH]; intros m root path Hn Hm; [lia|].
  destruct m as [|m]; [lia|].
  cbn [getByPath_fuel]. unfold getByPath_body.
  destruct (String.eqb path ""); [reflexivity|].
  apply (walk_ext _ _ (String.length path) ) with (pre := []).
  - intros t p Hp. apply IH; lia.
  - cbn [app]. now rewrite Join_Split.
Qed.

(** Any budget above the length of the path gives the result of
    [getByPath]. *)
Lemma getByPath_fuel_enough (n : nat) (root : tree) (path : string) :
  (String.length path < n)%nat ->
  getByPath_fuel lib n root path = getByPath lib root path.
Proof. intros H. apply getByPath_fuel_stable; lia. Qed.

(** The defining equation of [getByPath], with the nested calls made to
    [getByPath] itself. *)
Lemma getByPath_unfold (root : tree) (path : string) :
  getByPath lib root path = getByPath_body lib (getByPath lib) root path.
Proof.
  unfold getByPath at 1. cbn [getByPath_fuel]. unfold getByPath_body.
  destruct (String.eqb path ""); [reflexivity|].
  apply (walk_ext _ _ (String.length path)) with (pre := []).
  - intros t p Hp. apply getByPath_fuel_enough. exact Hp.
  - cbn [app]. now rewrite Join_Split.
Qed.

Lemma collect_total (rec : tree -> string -> outcome Result) (path : string) :
  (forall t, exists r, rec t path = Ok r) ->
  forall arr acc, exists results, collect lib rec arr path acc = Ok results.
Proof.
  intros H. induction arr as [|item arr IH]; intros acc; [now exists acc|].
  cbn [collect]. destruct (H item) as [r ->]. cbn [bind].
  destruct (Exists r); apply IH.
Qed.

Lemma handleArrayOperation_body_total
      (rec : tree -> string -> outcome Result) (current : tree) (path : string) :
  (forall t, exists r, rec t path = Ok r) ->
  exists r, handleArrayOperation_body lib rec current path = Ok r.
Proof.
  intros H. unfold handleArrayOperation_body.
  destruct current; try (eexists; reflexivity).
  destruct (String.eqb path ""); [eexists; reflexivity|].
  destruct (collect_total rec path H l []) as [results ->].
  cbn [bind]. eexists; reflexivity.
Qed.

(** No index or slice expression of the loop is out of range, provided
    the nested calls on shorter paths return. *)
Lemma walk_total (rec : tree -> string -> outcome Result) (L : nat) :
  (forall t p, (String.length p < L)%nat -> exists r, rec t p = Ok r) ->
  forall rest pre current,
    (String.length (strings.Join (pre ++ rest) ".") <= L)%nat ->
    exists r, walk lib rec (pre ++ rest) (sliceLen pre) rest current = Ok r.
Proof.
  intros Hrec. induction rest as [|part rest IH]; intros pre current HL;
    [eexists; reflexivity|].
  assert (IH' : forall cur, exists r,
             walk lib rec (pre ++ part :: rest) (sliceLen pre + 1) rest cur = Ok r).
  { intros cur. specialize (IH (pre ++ [part])%list cur).
    rewrite <- app_assoc, sliceLen_app in IH. apply IH. exact HL. }
  cbn [walk].
  destruct (String.eqb part ""); [apply IH'|].
  destruct (String.eqb part "#").
  { destruct (sliceLen pre =? sliceLen (pre ++ part :: rest) - 1) eqn:Hlast.
    - destruct current; eexists; reflexivity.
    - rewrite sliceFrom_app. cbn [bind].
      apply handleArrayOperation_body_total. intros t. apply Hrec.
      pose proof (Join_rest_lt pre part rest (not_last_nonempty _ _ _ Hlast)). lia. }
  destruct (strings.HasPrefix part "#(" && strings.HasSuffix part ")") eqn:Hq.
  { apply andb_prop in Hq as [Hq1 Hq2].
    rewrite (query_slice_ok part Hq1 Hq2). cbn [bind].
    destruct (negb (Exists _)); [eexists; reflexivity|].
    destruct (sliceLen pre <? sliceLen (pre ++ part :: rest) - 1) eqn:Hlast;
      [|eexists; reflexivity].
    rewrite sliceFrom_app. cbn [bind].
    destruct (reparse lib _); [|eexists; reflexivity].
    apply Hrec.
    pose proof (Join_rest_lt pre part rest (not_last_nonempty' _ _ _ Hlast)). lia. }
  cbn [negb]. rewrite andb_true_r.
  destruct (strings.HasPrefix part "#") eqn:Hhash.
  { destruct (stringMapLookup current part); [apply IH'|].
    destruct part as [|c tail]; [discriminate|].
    rewrite strSlice_tail. cbn [bind].
    apply handleArrayOperation_body_total. intros t. apply Hrec.
    pose proof (Join_part_le pre (String c tail) rest).
    cbn [String.length] in H. lia. }
  destruct (strconv.Atoi part).
  { destruct current; try (eexists; reflexivity).
    destruct ((z <? 0) || (sliceLen l <=? z)) eqn:Hidx; [eexists; reflexivity|].
    destruct (sliceIndex_in_range l z Hidx) as [x [-> _]]. cbn [bind]. apply IH'. }
  destruct current; try (eexists; reflexivity).
  - destruct (mapLookup part m); [apply IH'|eexists; reflexivity].
  - destruct (mapAnyLookup part m); [apply IH'|eexists; reflexivity].
Qed.

Lemma getByPath_body_total (rec : tree -> string -> outcome Result)
      (root : tree) (path : string) :
  (forall t p, (String.length p < String.length path)%nat ->
               exists r, rec t p = Ok r) ->
  exists r, getByPath_body lib rec root path = Ok r.
Proof.
  intros Hrec. unfold getByPath_body.
  destruct (String.eqb path "").
  - destruct root; try (eexists; reflexivity);
      destruct (yaml_Marshal lib _); eexists; reflexivity.
  - apply (walk_total rec (String.length path) Hrec) with (pre := []).
    cbn [app]. now rewrite Join_Split.
Qed.

Lemma getByPath_total (root : tree) (path : string) :
  exists r, getByPath lib root path = Ok r.
Proof.
  remember (String.length path) as n eqn:Hn.
  revert root path Hn.
  induction n as [n IH] using (well_founded_induction lt_wf).
  intros root path ->. rewrite getByPath_unfold.
  apply getByPath_body_total. intros t p Hp. exact (IH _ Hp t p eq_refl).
Qed.

End WalkFacts.

Lemma Split_noDot (s : string) : noDot s = true -> strings.Split s "." = [s].
Proof.
  induction s as [|c s IH]; [reflexivity|].
  cbn [noDot strings.Split]. intros H. apply andb_prop in H as [Hc Hs].
  destruct (Ascii.eqb c "."); [discriminate|]. now rewrite (IH Hs).
Qed.

Lemma Split_app_dot (p q : string) :
  noDot p = true ->
  strings.Split (p ++ "." ++ q) "." = p :: strings.Split q ".".
Proof.
  induction p as [|c p IH]; intros H.
  - reflexivity.
  - cbn [noDot] in H. apply andb_prop in H as [Hc Hp].
    change ((String c p ++ "." ++ q)%string) with (String c (p ++ "." ++ q)).
    cbn [strings.Split]. destruct (Ascii.eqb c "."); [discriminate|].
    now rewrite (IH Hp).
Qed.

(** Splitting a joined list of dot-free segments gives the list back. *)
Lemma Split_Join (l : list string) :
  l <> [] -> Forall (fun p => noDot p = true) l ->
  strings.Split (strings.Join l ".") "." = l.
Proof.
  induction l as [|p l IH]; [contradiction|]. intros _ H.
  inversion H as [|? ? Hp Hl]; subst.
  destruct l as [|q l]; [now apply Split_noDot|].
  rewrite Join_cons, (Split_app_dot _ _ Hp). f_equal.
  apply IH; [discriminate|assumption].
Qed.

Lemma plainSeg_noDot (part : string) : plainSeg part = true -> noDot part = true.
Proof. unfold plainSeg. intros H. now apply andb_prop in H as [_ H]. Qed.

Lemma HasPrefix_hash_paren (part : string) :
  strings.HasPrefix part "#" = false -> strings.HasPrefix part "#(" = false.
Proof.
  destruct part as [|a part]; [reflexivity|]. cbn [strings.HasPrefix].
  destruct (Ascii.eqb a "#"); [|reflexivity].
  destruct part; cbn [strings.HasPrefix andb]; discriminate.
Qed.

Lemma not_hash_of_prefix (part : string) :
  strings.HasPrefix part "#" = false -> String.eqb part "#" = false.
Proof.
  intros H. destruct (String.eqb_spec part "#") as [->|]; [discriminate|reflexivity].
Qed.

Section Steps.

Variable lib : GoLib.
Variable rec : tree -> string -> outcome Result.

(** The loop on a plain segment. *)
Lemma walk_plain (parts : list string) (i : Z) (part : string)
      (rest : list string) (current : tree) :
  plainSeg part = true ->
  walk lib rec parts i (part :: rest) current
  = match stepSeg current part with
    | Some t => walk lib rec parts (i + 1) rest t
    | None => Ok (withType Ty.Null)
    end.
Proof.
  unfold plainSeg. intros H.
  apply andb_prop in H as [H Hdot]. apply andb_prop in H as [Hne Hhash].
  apply negb_true_iff in Hne, Hhash.
  cbn [walk]. rewrite Hne, (not_hash_of_prefix _ Hhash),
    (HasPrefix_hash_paren _ Hhash), Hhash. cbn [andb].
  unfold stepSeg. destruct (strconv.Atoi part) as [idx|].
  - destruct current; try reflexivity.
    destruct ((idx <? 0) || (sliceLen l <=? idx)) eqn:Hidx; [reflexivity|].
    destruct (sliceIndex_in_range l idx Hidx) as [x [-> ->]]. reflexivity.
  - destruct current; reflexivity.
Qed.

(** The loop on an empty segment. *)
Lemma walk_empty (parts : list string) (i : Z) (rest : list string)
      (current : tree) :
  walk lib rec parts i ("" :: rest) current = walk lib rec parts (i + 1) rest current.
Proof. reflexivity. Qed.

(** The loop along plain segments that lead to a node. *)
Lemma walk_descend (parts : list string) (segs rest : list string) :
  Forall (fun p => plainSeg p = true) segs ->
  forall (i : Z) (current t : tree),
    descend current segs = Some t ->
    walk lib rec parts i (segs ++ rest) current
    = walk lib rec parts (i + sliceLen segs) rest t.
Proof.
  induction 1 as [|part segs Hp Hsegs IH]; intros i current t Hd.
  - cbn in Hd. injection Hd as ->. cbn [app]. f_equal.
    unfold sliceLen. cbn. lia.
  - cbn [descend] in Hd. cbn [app]. rewrite (walk_plain _ _ _ _ _ Hp).
    destruct (stepSeg current part) as [t'|]; [|discriminate].
    rewrite (IH _ _ _ Hd). f_equal. unfold sliceLen. cbn [List.length]. lia.
Qed.

(** The loop along plain segments that lead nowhere: a missing key, an
    index out of range, a key into a sequence or a scalar, an index into
    a mapping or a scalar. *)
Lemma walk_descend_none (parts : list string) (segs rest : list string) :
  Forall (fun p => plainSeg p = true) segs ->
  forall (i : Z) (current : tree),
    descend current segs = None ->
    walk lib rec parts i (segs ++ rest) current = Ok (withType Ty.Null).
Proof.
  induction 1 as [|part segs Hp Hsegs IH]; intros i current Hd; [discriminate|].
  cbn [descend] in Hd. cbn [app]. rewrite (walk_plain _ _ _ _ _ Hp).
  destruct (stepSeg current part) as [t'|]; [|reflexivity].
  now apply IH.
Qed.

End Steps.

(** ** Tokens [strconv.Atoi] accepts *)

Lemma isDigit_not_dot (c : ascii) :
  strconv.isDigit c = true -> Ascii.eqb c "." = false.
Proof.
  intros H. destruct (Ascii.eqb_spec c ".") as [->|]; [discriminate H|reflexivity].
Qed.

Lemma atoiLoop_noDot (s : string) :
  forall n m, strconv.atoiLoop s n = Some m -> noDot s = true.
Proof.
  induction s as [|c s IH]; intros n m H; [reflexivity|].
  cbn [strconv.atoiLoop] in H. cbn [noDot].
  destruct (strconv.isDigit c) eqn:Hc; [|discriminate].
  rewrite (isDigit_not_dot c Hc). cbn [negb andb]. eapply IH, H.
Qed.

Lemma parseUintLoop_noDot (s : string) :
  forall n v, strconv.parseUintLoop s n = (v, None) -> noDot s = true.
Proof.
  induction s as [|c s IH]; intros n v H; [reflexivity|].
  cbn [strconv.parseUintLoop] in H. cbn [noDot].
  destruct (strconv.isDigit c) eqn:Hc; cbn [negb] in H; [|discriminate].
  rewrite (isDigit_not_dot c Hc). cbn [negb andb].
  destruct (strconv.maxUint64 / 10 + 1 <=? n); [discriminate|].
  destruct (strconv.maxUint64 <? n * 10 + strconv.digitVal c); [discriminate|].
  eapply IH, H.
Qed.

Lemma ParseUint_noDot (s : string) (v : Z) :
  strconv.ParseUint s = (v, None) -> noDot s = true.
Proof.
  destruct s as [|c s]; [discriminate|]. apply parseUintLoop_noDot.
Qed.

Lemma parseUintLoop_range (s : string) :
  forall n v, strconv.parseUintLoop s n = (v, Some strconv.ErrRange) ->
              v = strconv.maxUint64.
Proof.
  induction s as [|c s IH]; intros n v H; [discriminate|].
  cbn [strconv.parseUintLoop] in H.
  destruct (negb (strconv.isDigit c)); [discriminate|].
  destruct (strconv.maxUint64 / 10 + 1 <=? n); [now injection H|].
  destruct (strconv.maxUint64 <? n * 10 + strconv.digitVal c); [now injection H|].
  eapply IH, H.
Qed.

Lemma ParseInt_noDot (s : string) (v : Z) :
  strconv.ParseInt s = (v, None) -> noDot s = true.
Proof.
  destruct s as [|c s]; [discriminate|]. unfold strconv.ParseInt.
  set (signed := (Ascii.eqb c "+" || Ascii.eqb c "-")%bool).
  destruct (strconv.ParseUint (if signed then s else String c s))
    as [un [[|]|]] eqn:Hu; intros H.
  - discriminate.
  - exfalso.
    assert (un = strconv.maxUint64) as ->.
    { destruct (if signed then s else String c s); [discriminate|].
      eapply parseUintLoop_range, Hu. }
    destruct (Ascii.eqb c "-"); discriminate H.
  - apply ParseUint_noDot in Hu. subst signed.
    destruct (Ascii.eqb_spec c "+") as [->|]; [exact Hu|].
    destruct (Ascii.eqb_spec c "-") as [->|]; [exact Hu|].
    exact Hu.
Qed.

(** A token [strconv.Atoi] accepts is an optional sign and decimal
    digits: it is not empty, holds no dot and does not start with [#]. *)
Lemma Atoi_plainSeg (part : string) (idx : Z) :
  strconv.Atoi part = Some idx -> plainSeg part = true.
Proof.
  intros H. unfold plainSeg.
  assert (Hne : String.eqb part "" = false).
  { destruct part; [discriminate H|reflexivity]. }
  assert (Hhash : strings.HasPrefix part "#" = false).
  { destruct part as [|c part]; [reflexivity|]. cbn [strings.HasPrefix].
    rewrite andb_true_r. destruct (Ascii.eqb_spec c "#") as [->|]; [|reflexivity].
    exfalso. unfold strconv.Atoi in H.
    destruct ((0 <? String.length (String "#" part))%nat
              && (String.length (String "#" part) <? 19)%nat).
    - cbn in H. discriminate.
    - cbn in H. discriminate. }
  assert (Hdot : noDot part = true).
  { unfold strconv.Atoi in H.
    destruct ((0 <? String.length part)%nat && (String.length part <? 19)%nat).
    - destruct part as [|c part]; [discriminate|].
      destruct (Ascii.eqb c "-" || Ascii.eqb c "+") eqn:Hs.
      + cbn [andb] in H.
        destruct (String.length part <? 1)%nat; [discriminate|].
        destruct (strconv.atoiLoop part 0) eqn:Hl; [|discriminate].
        cbn [noDot]. rewrite (atoiLoop_noDot _ _ _ Hl), andb_true_r.
        destruct (Ascii.eqb_spec c ".") as [->|]; [discriminate Hs|reflexivity].
      + cbn [andb] in H.
        destruct (strconv.atoiLoop (String c part) 0) eqn:Hl; [|discriminate].
        exact (atoiLoop_noDot _ _ _ Hl).
    - destruct (strconv.ParseInt part) as [i [e|]] eqn:Hp; [discriminate|].
      exact (ParseInt_noDot _ _ Hp). }
  now rewrite Hne, Hhash, Hdot.
Qed.

(** ** Resolution along plain segments *)

Section Resolution.

Variable lib : GoLib.

Lemma Join_nonempty (parts : list string) (p : string) :
  In p parts -> p <> "" -> strings.Join parts "." <> "".
Proof.
  intros Hin Hp Hj. apply in_split in Hin as [pre [rest ->]].
  pose proof (Join_part_le pre p rest) as Hle. rewrite Hj in Hle.
  destruct p; [contradiction|]. cbn in Hle. lia.
Qed.

(** On a path that joins dot-free segments, [getByPath] is its loop over
    these segments. *)
Lemma getByPath_walk (root : tree) (parts : list string) :
  Forall (fun p => noDot p = true) parts ->
  strings.Join parts "." <> "" ->
  getByPath lib root (strings.Join parts ".")
  = walk lib (getByPath lib) parts 0 parts root.
Proof.
  intros Hdot Hne. rewrite getByPath_unfold. unfold getByPath_body.
  destruct (String.eqb_spec (strings.Join parts ".") ""); [contradiction|].
  rewrite Split_Join; [reflexivity| |assumption].
  intros ->. now apply Hne.
Qed.

Lemma Get_getByPath (yamlStr path : string) (root : tree) :
  yamlStr <> "" -> path <> "" ->
  yaml_Unmarshal lib yamlStr = Some root ->
  Get lib yamlStr path = getByPath lib root path.
Proof.
  intros Hy Hp Hu. unfold Get, strings.len. rewrite Hu.
  destruct yamlStr; [contradiction|]. destruct path; [contradiction|].
  reflexivity.
Qed.

Lemma plain_noDot_all (segs : list string) :
  Forall (fun p => plainSeg p = true) segs -> Forall (fun p => noDot p = true) segs.
Proof. apply Forall_impl. exact plainSeg_noDot. Qed.

Lemma plainSeg_nonempty (p : string) : plainSeg p = true -> p <> "".
Proof. intros H ->. discriminate H. Qed.

End Resolution.

(** ** Query segments *)

Lemma string_app_assoc (a b c : string) :
  ((a ++ b) ++ c)%string = (a ++ (b ++ c))%string.
Proof. induction a as [|x a IH]; cbn; [reflexivity|now rewrite IH]. Qed.

Lemma string_app_nil_r (a : string) : (a ++ "")%string = a.
Proof. induction a as [|x a IH]; cbn; [reflexivity|now rewrite IH]. Qed.

Lemma rev_acc_app (s acc : string) :
  strings.rev_acc s acc = (strings.rev s ++ acc)%string.
Proof.
  unfold strings.rev. revert acc.
  induction s as [|c s IH]; intros acc; [reflexivity|].
  cbn [strings.rev_acc]. rewrite IH, (IH (String c "")).
  now rewrite string_app_assoc.
Qed.

Lemma rev_app (a b : string) :
  strings.rev (a ++ b) = (strings.rev b ++ strings.rev a)%string.
Proof.
  induction a as [|c a IH].
  - cbn. now rewrite string_app_nil_r.
  - change ((String c a ++ b)%string) with (String c (a ++ b)).
    unfold strings.rev at 1 3. cbn [strings.rev_acc].
    rewrite !rev_acc_app, IH. now rewrite string_app_assoc.
Qed.

Lemma HasPrefix_app (p r : string) : strings.HasPrefix (p ++ r) p = true.
Proof.
  induction p as [|c p IH]; [reflexivity|].
  cbn. now rewrite Ascii.eqb_refl.
Qed.

Lemma HasSuffix_app (s p : string) : strings.HasSuffix (s ++ p) p = true.
Proof. unfold strings.HasSuffix. rewrite rev_app. apply HasPrefix_app. Qed.

Lemma substring_app_prefix (q r : string) :
  String.substring 0 (String.length q) (q ++ r) = q.
Proof. induction q as [|c q IH]; cbn; [now destruct r|now rewrite IH]. Qed.

Lemma substring_app_skip (p r : string) (n : nat) :
  String.substring (String.length p) n (p ++ r) = String.substring 0 n r.
Proof. induction p as [|c p IH]; cbn; [reflexivity|exact IH]. Qed.

Lemma noByte_app (c : ascii) (a b : string) :
  noByte c (a ++ b) = noByte c a && noByte c b.
Proof.
  induction a as [|x a IH]; [reflexivity|].
  cbn. rewrite IH. now rewrite andb_assoc.
Qed.

Lemma noDot_noByte (s : string) : noDot s = noByte "." s.
Proof. induction s as [|c s IH]; cbn; [reflexivity|now rewrite IH]. Qed.

Lemma Index_noByte (c : ascii) (op s : string) :
  noByte c s = true -> strings.Index s (String c op) = None.
Proof.
  induction s as [|a s IH]; intros H; [reflexivity|].
  cbn [noByte] in H. apply andb_prop in H as [Ha Hs].
  cbn [strings.Index strings.HasPrefix].
  apply negb_true_iff in Ha. rewrite Ha. cbn [andb].
  now rewrite (IH Hs).
Qed.

Lemma Contains_noByte (c : ascii) (op s : string) :
  noByte c s = true -> strings.Contains s (String c op) = false.
Proof. intros H. unfold strings.Contains. now rewrite Index_noByte. Qed.

Lemma Index_first (c : ascii) (k r : string) :
  noByte c k = true ->
  strings.Index (k ++ String c r) (String c "") = Some (String.length k).
Proof.
  induction k as [|a k IH]; intros H.
  - cbn. now rewrite Ascii.eqb_refl.
  - cbn [noByte] in H. apply andb_prop in H as [Ha Hk].
    apply negb_true_iff in Ha.
    change ((String a k ++ String c r)%string) with (String a (k ++ String c r)).
    cbn [strings.Index strings.HasPrefix]. rewrite Ha. cbn [andb].
    now rewrite (IH Hk).
Qed.

Lemma SplitN2_first (c : ascii) (k v : string) :
  noByte c k = true ->
  strings.SplitN2 (k ++ String c v) (String c "") = [k; v].
Proof.
  intros H. unfold strings.SplitN2. rewrite (Index_first c k v H).
  rewrite substring_app_prefix. f_equal. f_equal.
  rewrite string_length_app. cbn [String.length].
  replace (String.length k + 1)%nat with (String.length (k ++ String c ""))
    by (rewrite string_length_app; reflexivity).
  replace (k ++ String c v)%string with ((k ++ String c "") ++ v)%string
    by (now rewrite string_app_assoc).
  rewrite substring_app_skip.
  replace (String.length k + S (String.length v) - String.length (k ++ String c ""))%nat
    with (String.length v) by (rewrite string_length_app; cbn; lia).
  apply substring_all.
Qed.

Section Query.

Variable lib : GoLib.

Lemma opFree_query (k v : string) (c : ascii) :
  opFree k = true -> opFree v = true ->
  c = "<"%char \/ c = ">"%char \/ c = "!"%char ->
  noByte c (k ++ String "=" v) = true.
Proof.
  unfold opFree. intros Hk Hv Hc.
  apply andb_prop in Hk as [Hk Hk3]. apply andb_prop in Hk as [Hk1 Hk2].
  apply andb_prop in Hv as [Hv Hv3]. apply andb_prop in Hv as [Hv1 Hv2].
  rewrite noByte_app. cbn [noByte].
  destruct Hc as [-> | [-> | ->]]; cbn [Ascii.eqb Bool.eqb negb andb];
    now rewrite ?Hk1, ?Hk2, ?Hk3, ?Hv1, ?Hv2, ?Hv3.
Qed.

(** The predicate text [k=v] is read as the key [k], the operator [=]
    and the literal [v]. *)
Lemma handleArrayQuery_equals (arr : list tree) (k v : string) :
  noByte "=" k = true -> opFree k = true -> opFree v = true ->
  strings.TrimSpace k = k ->
  strings.Trim (strings.TrimSpace v) quotes = v ->
  handleArrayQuery lib (TSlice arr) (k ++ "=" ++ v) = firstMatch lib arr k "=" v.
Proof.
  intros Heq Hk Hv Htk Htv.
  change (k ++ "=" ++ v)%string with (k ++ String "=" v)%string.
  unfold handleArrayQuery, operators. cbn [findOperator].
  rewrite !Contains_noByte by (apply opFree_query; auto).
  unfold strings.Contains at 1. rewrite (Index_first "=" k v Heq).
  rewrite (SplitN2_first "=" k v Heq), Htk, Htv. reflexivity.
Qed.

Lemma matchesCondition_equals (val : tree) (v : string) :
  matchesCondition lib val "=" v = String.eqb (Sprint lib val) v.
Proof. reflexivity. Qed.

Lemma firstMatch_cons (item : tree) (arr : list tree) (k v : string) :
  k <> "" ->
  firstMatch lib (item :: arr) k "=" v
  = if fieldEquals lib k v item then makeResult lib item
    else firstMatch lib arr k "=" v.
Proof.
  intros Hk. apply String.eqb_neq in Hk. cbn [firstMatch]. unfold fieldEquals.
  destruct item; rewrite ?Hk; cbn [andb]; try reflexivity.
  destruct (mapLookup k m); [|reflexivity].
  now rewrite matchesCondition_equals.
Qed.

(** [firstMatch] returns the element at the smallest index that satisfies
    the predicate. *)
Lemma firstMatch_smallest (arr : list tree) (k v : string) :
  k <> "" ->
  forall (i : nat) (item : tree),
    nth_error arr i = Some item ->
    fieldEquals lib k v item = true ->
    (forall j other, (j < i)%nat -> nth_error arr j = Some other ->
                     fieldEquals lib k v other = false) ->
    firstMatch lib arr k "=" v = makeResult lib item.
Proof.
  intros Hk. induction arr as [|x arr IH]; intros i item Hi Hit Hmin.
  - destruct i; discriminate.
  - rewrite (firstMatch_cons _ _ _ _ Hk). destruct i as [|i].
    + injection Hi as ->. now rewrite Hit.
    + rewrite (Hmin 0%nat x); [|lia|reflexivity].
      apply (IH i); [exact Hi|exact Hit|].
      intros j other Hj Ho. apply (Hmin (S j)); [lia|exact Ho].
Qed.

Lemma firstMatch_none (arr : list tree) (k v : string) :
  k <> "" ->
  (forall item, In item arr -> fieldEquals lib k v item = false) ->
  firstMatch lib arr k "=" v = withType Ty.Null.
Proof.
  intros Hk. induction arr as [|x arr IH]; intros H; [reflexivity|].
  rewrite (firstMatch_cons _ _ _ _ Hk), (H x) by now left.
  apply IH. intros item Hin. apply H. now right.
Qed.

(** The loop on a query segment in the last position. *)
Lemma walk_query_last (rec : tree -> string -> outcome Result)
      (parts : list string) (q : string) (current : tree) :
  walk lib rec parts (sliceLen parts - 1) [("#(" ++ q ++ ")")%string] current
  = Ok (handleArrayQuery lib current q).
Proof.
  cbn [walk].
  assert (Hp : strings.HasPrefix ("#(" ++ q ++ ")") "#(" = true) by reflexivity.
  assert (Hs : strings.HasSuffix ("#(" ++ q ++ ")") ")" = true).
  { replace ("#(" ++ q ++ ")")%string with (("#(" ++ q) ++ ")")%string
      by apply string_app_assoc.
    apply HasSuffix_app. }
  replace (String.eqb ("#(" ++ q ++ ")") "") with false by reflexivity.
  replace (String.eqb ("#(" ++ q ++ ")") "#") with false
    by (destruct q; reflexivity).
  rewrite Hp, Hs. cbn [andb].
  rewrite (query_slice_ok _ Hp Hs). cbn [bind].
  replace (String.substring 2 (String.length ("#(" ++ q ++ ")") - 3) ("#(" ++ q ++ ")"))
    with q.
  - rewrite Z.ltb_irrefl. now destruct (negb (Exists _)).
  - cbn [append String.length String.substring].
    rewrite string_length_app. cbn [String.length].
    replace (S (S (String.length q + 1)) - 3)%nat with (String.length q) by lia.
    now rewrite substring_app_prefix.
Qed.

End Query.

Lemma noDot_app (a b : string) : noDot (a ++ b) = noDot a && noDot b.
Proof. now rewrite !noDot_noByte, noByte_app. Qed.

(** A path that ends in a query segment resolves to what
    [handleArrayQuery] returns on the node the plain segments lead to. *)
Lemma getByPath_query_last (lib : GoLib) (root target : tree)
      (segs : list string) (q : string) :
  Forall (fun p => plainSeg p = true) segs ->
  descend root segs = Some target ->
  noDot q = true ->
  getByPath lib root (strings.Join (segs ++ [("#(" ++ q ++ ")")%string]) ".")
  = Ok (handleArrayQuery lib target q).
Proof.
  intros Hsegs Hd Hq.
  rewrite getByPath_walk.
  - rewrite (walk_descend lib _ _ segs _ Hsegs 0 root target Hd).
    replace (0 + sliceLen segs)
      with (sliceLen (segs ++ [("#(" ++ q ++ ")")%string]) - 1)
      by (rewrite sliceLen_app; unfold sliceLen; cbn [List.length]; lia).
    apply walk_query_last.
  - apply Forall_app. split; [now apply plain_noDot_all|].
    constructor; [|constructor].
    rewrite !noDot_app, Hq. reflexivity.
  - apply (Join_nonempty _ ("#(" ++ q ++ ")")%string); [|discriminate].
    apply in_or_app. right. now left.
Qed.

(** ** Broadcast segments *)

Section Broadcast.

Variable lib : GoLib.

Lemma getByPath_plain (item : tree) (k : string) :
  plainSeg k = true ->
  getByPath lib item k
  = Ok (match stepSeg item k with
        | Some t => makeResult lib t
        | None => withType Ty.Null
        end).
Proof.
  intros Hk.
  change k with (strings.Join [k] ".") at 1.
  rewrite getByPath_walk.
  - rewrite (walk_plain lib _ _ _ _ _ _ Hk). now destruct (stepSeg item k).
  - constructor; [now apply plainSeg_noDot|constructor].
  - cbn. now apply plainSeg_nonempty.
Qed.

Lemma stepSeg_key (item : tree) (k : string) :
  strconv.Atoi k = None -> stepSeg item k = fieldOf k item.
Proof. intros H. unfold stepSeg. now rewrite H. Qed.






End Broadcast.

(** ** Empty segments *)

Section EmptySegments.

Variable lib : GoLib.

Lemma getByPath_empty (root : tree) :
  getByPath lib root "" = Ok (makeResult lib root).
Proof.
  unfold getByPath. cbn [String.length getByPath_fuel]. unfold getByPath_body.
  cbn [String.eqb]. destruct root; try reflexivity;
    cbn [makeResult]; destruct (yaml_Marshal lib _); reflexivity.
Qed.

Lemma Split_all_noDot (s : string) :
  Forall (fun p => noDot p = true) (strings.Split s ".").
Proof.
  induction s as [|c s IH]; [repeat constructor|].
  cbn [strings.Split]. destruct (Ascii.eqb c ".") eqn:Hc.
  - constructor; [reflexivity|exact IH].
  - destruct (strings.Split s ".") as [|p ps]; [repeat constructor; cbn; now rewrite Hc|].
    inversion IH; subst. constructor; [|assumption].
    cbn [noDot]. rewrite Hc. assumption.
Qed.

Lemma collect_paths (rec : tree -> string -> outcome Result) (p1 p2 : string) :
  (forall t, rec t p1 = rec t p2) ->
  forall arr acc, collect lib rec arr p1 acc = collect lib rec arr p2 acc.
Proof.
  intros H. induction arr as [|item arr IH]; intros acc; [reflexivity|].
  cbn [collect]. rewrite H. destruct (rec item p2); cbn [bind]; try reflexivity.
  destruct (Exists a); apply IH.
Qed.

Lemma handleArrayOperation_body_paths
      (rec : tree -> string -> outcome Result) (current : tree) (p1 p2 : string) :
  p1 <> "" -> p2 <> "" ->
  (forall t, rec t p1 = rec t p2) ->
  handleArrayOperation_body lib rec current p1
  = handleArrayOperation_body lib rec current p2.
Proof.
  intros H1 H2 H. unfold handleArrayOperation_body.
  destruct current; try reflexivity.
  apply String.eqb_neq in H1, H2. rewrite H1, H2.
  now rewrite (collect_paths rec p1 p2 H).
Qed.

Lemma dropEmpty_nonempty (rest : list string) :
  existsb nonEmpty rest = true -> dropEmpty rest <> [].
Proof.
  induction rest as [|p rest IH]; [discriminate|].
  cbn. destruct (nonEmpty p); [discriminate|]. exact IH.
Qed.

Lemma Join_existsb_nonempty (rest : list string) :
  existsb nonEmpty rest = true -> strings.Join rest "." <> "".
Proof.
  intros H. apply existsb_exists in H as [p [Hin Hp]].
  apply (Join_nonempty rest p Hin). intros ->. discriminate.
Qed.

Lemma Join_dropEmpty_nonempty (rest : list string) :
  existsb nonEmpty rest = true -> strings.Join (dropEmpty rest) "." <> "".
Proof.
  intros H. apply existsb_exists in H as [p [Hin Hp]].
  apply (Join_nonempty _ p).
  - apply filter_In. now split.
  - intros ->. discriminate.
Qed.

Lemma match_nonempty {A B : Type} (l : list A) (a b : B) :
  l <> [] -> match l with [] => a | _ => b end = b.
Proof. destruct l; [contradiction|reflexivity]. Qed.

Lemma existsb_nonempty_list (rest : list string) :
  existsb nonEmpty rest = true -> rest <> [].
Proof. intros H ->. discriminate H. Qed.

Lemma last_test_eq {A : Type} (pre : list A) (x : A) (rest : list A) :
  (sliceLen pre =? sliceLen (pre ++ x :: rest) - 1)
  = match rest with [] => true | _ => false end.
Proof.
  destruct rest as [|y rest].
  - now apply last_index_iff.
  - apply Z.eqb_neq. rewrite sliceLen_app. unfold sliceLen. cbn [List.length]. lia.
Qed.

Lemma more_test_eq {A : Type} (pre : list A) (x : A) (rest : list A) :
  (sliceLen pre <? sliceLen (pre ++ x :: rest) - 1)
  = match rest with [] => false | _ => true end.
Proof.
  rewrite sliceLen_app. unfold sliceLen. destruct rest; cbn [List.length].
  - apply Z.ltb_ge. lia.
  - apply Z.ltb_lt. lia.
Qed.

(** The loop on a path and on the path without its empty segments. *)
Lemma walk_dropEmpty (L : nat) :
  (forall t parts,
      Forall (fun p => noDot p = true) parts -> restSettled parts = true ->
      (String.length (strings.Join parts ".") < L)%nat ->
      getByPath lib t (strings.Join parts ".")
      = getByPath lib t (strings.Join (dropEmpty parts) ".")) ->
  forall rest pre pre' current,
    Forall (fun p => noDot p = true) rest -> restSettled rest = true ->
    (String.length (strings.Join (pre ++ rest) ".") <= L)%nat ->
    walk lib (getByPath lib) (pre ++ rest) (sliceLen pre) rest current
    = walk lib (getByPath lib) (pre' ++ dropEmpty rest) (sliceLen pre')
           (dropEmpty rest) current.
Proof.
  intros Hrec. induction rest as [|part rest IH]; intros pre pre' current Hdot Hset HL;
    [reflexivity|].
  inversion Hdot as [|? ? Hpd Hrd]; subst.
  cbn [restSettled] in Hset. apply andb_prop in Hset as [Hhere Hset].
  assert (IHk : forall pre2 cur,
             walk lib (getByPath lib) (pre ++ part :: rest) (sliceLen pre + 1) rest cur
             = walk lib (getByPath lib) (pre2 ++ dropEmpty rest) (sliceLen pre2)
                    (dropEmpty rest) cur).
  { intros pre2 cur. specialize (IH (pre ++ [part])%list pre2 cur Hrd Hset).
    rewrite <- app_assoc, sliceLen_app in IH. apply IH. exact HL. }
  destruct (String.eqb part "") eqn:Hne.
  { apply String.eqb_eq in Hne. subst part. rewrite walk_empty.
    cbn [dropEmpty filter nonEmpty String.eqb negb]. apply IHk. }
  assert (Hclean : dropEmpty (part :: rest) = part :: dropEmpty rest).
  { unfold dropEmpty. cbn [filter]. unfold nonEmpty at 1. now rewrite Hne. }
  rewrite Hclean.
  assert (IHs : forall cur,
             walk lib (getByPath lib) (pre ++ part :: rest) (sliceLen pre + 1) rest cur
             = walk lib (getByPath lib) (pre' ++ part :: dropEmpty rest)
                    (sliceLen pre' + 1) (dropEmpty rest) cur).
  { intros cur. rewrite (IHk (pre' ++ [part])%list cur).
    now rewrite <- app_assoc, sliceLen_app. }
  assert (Htail : countsRest part = true ->
                  match rest with
                  | [] => dropEmpty rest = []
                  | _ => existsb nonEmpty rest = true
                  end).
  { intros Hc. rewrite Hc in Hhere. cbn [negb orb] in Hhere.
    destruct rest; [reflexivity|exact Hhere]. }
  assert (Hnested : forall t, existsb nonEmpty rest = true ->
                     getByPath lib t (strings.Join rest ".")
                     = getByPath lib t (strings.Join (dropEmpty rest) ".")).
  { intros t He. apply Hrec; [assumption|assumption|].
    assert (rest <> []) as Hr by (intros ->; discriminate He).
    pose proof (Join_rest_lt pre part rest Hr). lia. }
  cbn [walk]. rewrite Hne. unfold countsRest in Htail.
  destruct (String.eqb part "#") eqn:Hhash.
  { cbn [orb] in Htail. specialize (Htail eq_refl).
    rewrite !last_test_eq. destruct rest as [|r rest].
    - rewrite Htail. reflexivity.
    - rewrite (match_nonempty _ _ _ (dropEmpty_nonempty _ Htail)).
      rewrite !sliceFrom_app. cbn [bind].
      apply handleArrayOperation_body_paths.
      + now apply Join_existsb_nonempty.
      + now apply Join_dropEmpty_nonempty.
      + intros t. now apply Hnested. }
  cbn [orb] in Htail.
  destruct (strings.HasPrefix part "#(" && strings.HasSuffix part ")") eqn:Hq.
  { specialize (Htail eq_refl).
    destruct (strSlice part 2 (strings.len part - 1)); cbn [bind]; try reflexivity.
    destruct (negb (Exists (handleArrayQuery lib current a))); [reflexivity|].
    rewrite !more_test_eq. destruct rest as [|r rest].
    - rewrite Htail. reflexivity.
    - rewrite (match_nonempty _ _ _ (dropEmpty_nonempty _ Htail)).
      rewrite !sliceFrom_app. cbn [bind].
      destruct (reparse lib _); [|reflexivity]. now apply Hnested. }
  cbn [negb]. rewrite andb_true_r.
  destruct (strings.HasPrefix part "#").
  { destruct (stringMapLookup current part); [apply IHs|reflexivity]. }
  destruct (strconv.Atoi part).
  { destruct current; try reflexivity.
    destruct ((z <? 0) || (sliceLen l <=? z)); [reflexivity|].
    destruct (sliceIndex l z); cbn [bind]; try reflexivity. apply IHs. }
  destruct current; try reflexivity.
  - destruct (mapLookup part m); [apply IHs|reflexivity].
  - destruct (mapAnyLookup part m); [apply IHs|reflexivity].
Qed.

Lemma dropEmpty_noDot (parts : list string) :
  Forall (fun p => noDot p = true) parts ->
  Forall (fun p => noDot p = true) (dropEmpty parts).
Proof.
  intros H. apply Forall_forall. intros p Hin.
  apply filter_In in Hin as [Hin _]. revert p Hin. now apply Forall_forall.
Qed.

Lemma getByPath_dropEmpty_parts (n : nat) :
  forall root parts,
    (String.length (strings.Join parts ".") < n)%nat ->
    Forall (fun p => noDot p = true) parts -> restSettled parts = true ->
    getByPath lib root (strings.Join parts ".")
    = getByPath lib root (strings.Join (dropEmpty parts) ".").
Proof.
  induction n as [|n IH]; intros root parts Hn Hdot Hset; [lia|].
  destruct (String.eqb_spec (strings.Join parts ".") "") as [He|Hne].
  - assert (Hd : dropEmpty parts = []).
    { destruct (dropEmpty parts) as [|p ps] eqn:Hdp; [reflexivity|exfalso].
      assert (Hin : In p (dropEmpty parts)) by (rewrite Hdp; now left).
      apply filter_In in Hin as [Hin Hp].
      apply (Join_nonempty parts p Hin); [|exact He].
      intros ->. discriminate Hp. }
    rewrite Hd, He. reflexivity.
  - rewrite (getByPath_walk lib root parts Hdot Hne).
    pose proof (walk_dropEmpty (String.length (strings.Join parts "."))) as Hw.
    specialize (Hw (fun t ps Hd Hs Hl => IH t ps ltac:(lia) Hd Hs)).
    specialize (Hw parts [] [] root Hdot Hset (Nat.le_refl _)).
    cbn [app sliceLen List.length Z.of_nat] in Hw. rewrite Hw.
    destruct (dropEmpty parts) as [|p ps] eqn:Hdp.
    + cbn [walk strings.Join]. now rewrite getByPath_empty.
    + rewrite <- Hdp. symmetry. apply getByPath_walk.
      * now apply dropEmpty_noDot.
      * apply (Join_nonempty _ p).
        -- rewrite Hdp. now left.
        -- assert (Hin : In p (dropEmpty parts)) by (rewrite Hdp; now left).
           apply filter_In in Hin as [_ Hp]. intros ->. discriminate Hp.
Qed.

End EmptySegments.

(** ** Decimal texts *)

Lemma val10_of_uint_acc (d : Decimal.uint) :
  forall acc, Z.pos (Pos.of_uint_acc d acc) = val10 d (Z.pos acc).
Proof.
  induction d; intros acc; cbn [Pos.of_uint_acc val10];
    try reflexivity; rewrite IHd; f_equal; lia.
Qed.

Lemma val10_of_uint (d : Decimal.uint) : Z.of_N (Pos.of_uint d) = val10 d 0.
Proof.
  induction d; cbn [Pos.of_uint val10]; try reflexivity;
    try (rewrite IHd; reflexivity);
    cbn [Z.of_N]; rewrite val10_of_uint_acc; reflexivity.
Qed.

Lemma val10_to_uint (p : positive) : val10 (Pos.to_uint p) 0 = Z.pos p.
Proof. now rewrite <- val10_of_uint, DecimalPos.Unsigned.of_to. Qed.

Lemma val10_mono (d : Decimal.uint) : forall acc, 0 <= acc -> acc <= val10 d acc.
Proof.
  induction d; intros acc Hacc; cbn [val10]; try lia;
    (etransitivity; [|apply IHd; lia]); lia.
Qed.

Lemma maxUint64_eq : strconv.maxUint64 = 18446744073709551615.
Proof. reflexivity. Qed.

Lemma cutoff_eq : strconv.maxUint64 / 10 + 1 = 1844674407370955162.
Proof. reflexivity. Qed.

Lemma parseUintLoop_step (c : ascii) (s : string) (acc k : Z) :
  strconv.isDigit c = true -> strconv.digitVal c = k -> 0 <= k ->
  0 <= acc -> 10 * acc + k <= strconv.maxUint64 ->
  strconv.parseUintLoop (String c s) acc = strconv.parseUintLoop s (10 * acc + k).
Proof.
  intros Hc Hk Hk0 Hacc Hle. cbn [strconv.parseUintLoop]. rewrite Hc, Hk. cbn [negb].
  rewrite cutoff_eq. rewrite maxUint64_eq in *.
  destruct (Z.leb_spec 1844674407370955162 acc); [lia|].
  destruct (Z.ltb_spec 18446744073709551615 (acc * 10 + k)); [lia|].
  f_equal. lia.
Qed.

Ltac digit_step c k IH Hle :=
  rewrite (parseUintLoop_step c _ _ k);
  [ apply IH; [lia|exact Hle]
  | reflexivity | reflexivity | lia | lia
  | eapply Z.le_trans; [apply val10_mono; lia|exact Hle] ].

Lemma parseUintLoop_digits (d : Decimal.uint) :
  forall acc, 0 <= acc -> val10 d acc <= strconv.maxUint64 ->
  strconv.parseUintLoop (NilEmpty.string_of_uint d) acc = (val10 d acc, None).
Proof.
  induction d; intros acc Hacc Hle; cbn [NilEmpty.string_of_uint val10] in *.
  - reflexivity.
  - digit_step "0"%char 0 IHd Hle.
  - digit_step "1"%char 1 IHd Hle.
  - digit_step "2"%char 2 IHd Hle.
  - digit_step "3"%char 3 IHd Hle.
  - digit_step "4"%char 4 IHd Hle.
  - digit_step "5"%char 5 IHd Hle.
  - digit_step "6"%char 6 IHd Hle.
  - digit_step "7"%char 7 IHd Hle.
  - digit_step "8"%char 8 IHd Hle.
  - digit_step "9"%char 9 IHd Hle.
Qed.

Lemma atoiLoop_step (c : ascii) (s : string) (acc k : Z) :
  strconv.isDigit c = true -> strconv.digitVal c = k ->
  strconv.atoiLoop (String c s) acc = strconv.atoiLoop s (10 * acc + k).
Proof.
  intros Hc Hk. cbn [strconv.atoiLoop]. rewrite Hc, Hk. f_equal. lia.
Qed.

Lemma atoiLoop_digits (d : Decimal.uint) :
  forall acc, strconv.atoiLoop (NilEmpty.string_of_uint d) acc = Some (val10 d acc).
Proof.
  induction d; intros acc; cbn [NilEmpty.string_of_uint val10];
    try reflexivity;
    (erewrite atoiLoop_step; [apply IHd|reflexivity|reflexivity]).
Qed.

(** The decimal text of a positive number: digits only, the first byte
    being one of them. *)
Lemma digits_allBytes (d : Decimal.uint) :
  allBytes strconv.isDigit (NilEmpty.string_of_uint d) = true.
Proof. induction d; cbn [NilEmpty.string_of_uint allBytes]; auto. Qed.

Lemma digits_head (p : positive) :
  exists c s, NilEmpty.string_of_uint (Pos.to_uint p) = String c s
              /\ strconv.isDigit c = true.
Proof.
  pose proof (DecimalPos.Unsigned.to_uint_nonnil p) as Hn.
  pose proof (digits_allBytes (Pos.to_uint p)) as Ha.
  destruct (Pos.to_uint p); [contradiction| ..];
    cbn [NilEmpty.string_of_uint] in *; eexists; eexists; (split; [reflexivity|]);
    reflexivity.
Qed.

Lemma FormatInt_pos (p : positive) :
  strconv.FormatInt (Z.pos p) = NilEmpty.string_of_uint (Pos.to_uint p).
Proof.
  unfold strconv.FormatInt. cbn [Z.to_int NilZero.string_of_int].
  pose proof (DecimalPos.Unsigned.to_uint_nonnil p) as Hn.
  unfold NilZero.string_of_uint. destruct (Pos.to_uint p); [contradiction| ..]; reflexivity.
Qed.

Lemma FormatInt_neg (p : positive) :
  strconv.FormatInt (Z.neg p) = String "-" (NilEmpty.string_of_uint (Pos.to_uint p)).
Proof.
  unfold strconv.FormatInt. cbn [Z.to_int NilZero.string_of_int]. f_equal.
  pose proof (DecimalPos.Unsigned.to_uint_nonnil p) as Hn.
  unfold NilZero.string_of_uint. destruct (Pos.to_uint p); [contradiction| ..]; reflexivity.
Qed.

Lemma FormatUint_pos (p : positive) :
  strconv.FormatUint (Z.pos p) = NilEmpty.string_of_uint (Pos.to_uint p).
Proof.
  unfold strconv.FormatUint. cbn [Z.to_N N.to_uint].
  pose proof (DecimalPos.Unsigned.to_uint_nonnil p) as Hn.
  unfold NilZero.string_of_uint. destruct (Pos.to_uint p); [contradiction| ..]; reflexivity.
Qed.

Lemma ParseUint_digits (p : positive) :
  Z.pos p <= strconv.maxUint64 ->
  strconv.ParseUint (NilEmpty.string_of_uint (Pos.to_uint p)) = (Z.pos p, None).
Proof.
  intros Hle. destruct (digits_head p) as [c [s [E Hc]]].
  unfold strconv.ParseUint. rewrite E at 1. rewrite parseUintLoop_digits.
  - now rewrite val10_to_uint.
  - lia.
  - now rewrite val10_to_uint.
Qed.

Lemma isDigit_not_sign (c : ascii) :
  strconv.isDigit c = true -> Ascii.eqb c "+" = false /\ Ascii.eqb c "-" = false.
Proof.
  intros H. split.
  - destruct (Ascii.eqb_spec c "+") as [->|]; [discriminate H|reflexivity].
  - destruct (Ascii.eqb_spec c "-") as [->|]; [discriminate H|reflexivity].
Qed.

(** [ParseInt] reads back what [FormatInt] writes. *)
Lemma ParseInt_FormatInt (v : Z) :
  strconv.minInt64 <= v <= strconv.maxInt64 ->
  strconv.ParseInt (strconv.FormatInt v) = (v, None).
Proof.
  intros [Hlo Hhi]. destruct v as [|p|p].
  - reflexivity.
  - rewrite FormatInt_pos.
    assert (Hu : Z.pos p <= strconv.maxUint64)
      by (unfold strconv.maxInt64 in Hhi; rewrite maxUint64_eq; lia).
    pose proof (ParseUint_digits p Hu) as HP.
    destruct (digits_head p) as [c [s [E Hc]]].
    destruct (isDigit_not_sign c Hc) as [Hplus Hminus].
    rewrite E in *. unfold strconv.ParseInt. rewrite Hplus, Hminus. cbn [orb].
    rewrite HP. cbn [negb andb].
    unfold strconv.maxInt64 in Hhi.
    destruct (Z.leb_spec (2 ^ 63) (Z.pos p)); [lia|]. reflexivity.
  - rewrite FormatInt_neg.
    assert (Hu : Z.pos p <= strconv.maxUint64)
      by (unfold strconv.minInt64 in Hlo; rewrite maxUint64_eq; lia).
    unfold strconv.ParseInt.
    replace (Ascii.eqb "-" "+") with false by reflexivity.
    replace (Ascii.eqb "-" "-") with true by reflexivity.
    cbn [orb]. rewrite (ParseUint_digits p Hu). cbn [negb andb].
    unfold strconv.minInt64 in Hlo.
    destruct (Z.ltb_spec (2 ^ 63) (Z.pos p)); [lia|]. reflexivity.
Qed.

(** [ParseUint] reads back what [FormatUint] writes. *)
Lemma ParseUint_FormatUint (v : Z) :
  0 <= v <= strconv.maxUint64 ->
  strconv.ParseUint (strconv.FormatUint v) = (v, None).
Proof.
  intros [Hlo Hhi]. destruct v as [|p|p]; [reflexivity| |lia].
  rewrite FormatUint_pos. now apply ParseUint_digits.
Qed.

(** [Atoi] reads back what [FormatInt] writes. *)
Lemma Atoi_FormatInt (v : Z) :
  strconv.minInt64 <= v <= strconv.maxInt64 ->
  strconv.Atoi (strconv.FormatInt v) = Some v.
Proof.
  intros Hv. unfold strconv.Atoi.
  destruct ((0 <? String.length (strconv.FormatInt v))%nat
            && (String.length (strconv.FormatInt v) <? 19)%nat);
    [|now rewrite (ParseInt_FormatInt v Hv)].
  destruct v as [|p|p].
  - reflexivity.
  - rewrite FormatInt_pos.
    destruct (digits_head p) as [c [s [E Hc]]].
    destruct (isDigit_not_sign c Hc) as [Hplus Hminus].
    pose proof (atoiLoop_digits (Pos.to_uint p) 0) as HA.
    rewrite E in *. rewrite Hplus, Hminus. cbn [orb andb].
    rewrite HA, val10_to_uint. reflexivity.
  - rewrite FormatInt_neg.
    replace (Ascii.eqb "-" "+") with false by reflexivity.
    replace (Ascii.eqb "-" "-") with true by reflexivity.
    cbn [orb andb].
    destruct (digits_head p) as [c [s [E Hc]]].
    pose proof (atoiLoop_digits (Pos.to_uint p) 0) as HA.
    rewrite E in *. cbn [String.length Nat.ltb Nat.leb].
    rewrite HA, val10_to_uint. reflexivity.
Qed.

(** ** Texts without spaces *)

Lemma allBytes_impl (P Q : ascii -> bool) (s : string) :
  (forall c, P c = true -> Q c = true) ->
  allBytes P s = true -> allBytes Q s = true.
Proof.
  intros H. induction s as [|c s IH]; [reflexivity|].
  cbn [allBytes]. intros Hs. apply andb_prop in Hs as [Hc Hs].
  now rewrite (H c Hc), (IH Hs).
Qed.

Lemma allBytes_app (P : ascii -> bool) (a b : string) :
  allBytes P (a ++ b) = allBytes P a && allBytes P b.
Proof.
  induction a as [|c a IH]; [reflexivity|].
  cbn. rewrite IH. now rewrite andb_assoc.
Qed.

Lemma rev_cons (c : ascii) (s : string) :
  strings.rev (String c s) = (strings.rev s ++ String c "")%string.
Proof. unfold strings.rev at 1. cbn [strings.rev_acc]. apply rev_acc_app. Qed.

Lemma rev_rev (s : string) : strings.rev (strings.rev s) = s.
Proof.
  induction s as [|c s IH]; [reflexivity|].
  rewrite rev_cons, rev_app, IH. reflexivity.
Qed.

Lemma allBytes_rev (P : ascii -> bool) (s : string) :
  allBytes P (strings.rev s) = allBytes P s.
Proof.
  induction s as [|c s IH]; [reflexivity|].
  rewrite rev_cons, allBytes_app, IH. cbn [allBytes].
  rewrite andb_true_r. apply andb_comm.
Qed.

Lemma textByte_range (c : ascii) :
  textByte c = true -> (33 <= nat_of_ascii c < 127)%nat.
Proof.
  unfold textByte. intros H. apply andb_prop in H as [H1 H2].
  apply Nat.leb_le in H1. apply Nat.ltb_lt in H2. lia.
Qed.

Lemma asciiSpace_text (c : ascii) : textByte c = true -> strings.asciiSpace c = false.
Proof.
  intros H. apply textByte_range in H. unfold strings.asciiSpace.
  destruct (Nat.leb_spec (nat_of_ascii c) 13); [lia|].
  rewrite andb_false_r. cbn [orb]. apply Nat.eqb_neq. lia.
Qed.

Lemma space2_lead (a b : ascii) : textByte a = true -> strings.space2 a b = false.
Proof.
  intros H. apply textByte_range in H. unfold strings.space2.
  replace (nat_of_ascii a =? 194)%nat with false; [reflexivity|].
  symmetry. apply Nat.eqb_neq. lia.
Qed.

Lemma space2_last (a b : ascii) : textByte b = true -> strings.space2 a b = false.
Proof.
  intros H. apply textByte_range in H. unfold strings.space2.
  replace (nat_of_ascii b =? 133)%nat with false
    by (symmetry; apply Nat.eqb_neq; lia).
  replace (nat_of_ascii b =? 160)%nat with false
    by (symmetry; apply Nat.eqb_neq; lia).
  apply andb_false_r.
Qed.

Lemma space3_lead (a b c : ascii) : textByte a = true -> strings.space3 a b c = false.
Proof.
  intros H. apply textByte_range in H. unfold strings.space3.
  replace (nat_of_ascii a =? 225)%nat with false
    by (symmetry; apply Nat.eqb_neq; lia).
  replace (nat_of_ascii a =? 226)%nat with false
    by (symmetry; apply Nat.eqb_neq; lia).
  replace (nat_of_ascii a =? 227)%nat with false
    by (symmetry; apply Nat.eqb_neq; lia).
  reflexivity.
Qed.

Lemma space3_last (a b c : ascii) : textByte c = true -> strings.space3 a b c = false.
Proof.
  intros H. apply textByte_range in H. unfold strings.space3.
  replace (nat_of_ascii c =? 128)%nat with false
    by (symmetry; apply Nat.eqb_neq; lia).
  replace (nat_of_ascii c =? 159)%nat with false
    by (symmetry; apply Nat.eqb_neq; lia).
  replace (nat_of_ascii c =? 168)%nat with false
    by (symmetry; apply Nat.eqb_neq; lia).
  replace (nat_of_ascii c =? 169)%nat with false
    by (symmetry; apply Nat.eqb_neq; lia).
  replace (nat_of_ascii c =? 175)%nat with false
    by (symmetry; apply Nat.eqb_neq; lia).
  replace (128 <=? nat_of_ascii c)%nat with false
    by (symmetry; apply Nat.leb_gt; lia).
  now rewrite !andb_false_r.
Qed.

Lemma trimLeftSpace_text (c : ascii) (s : string) :
  textByte c = true -> strings.trimLeftSpace (String c s) = String c s.
Proof.
  intros H. cbn [strings.trimLeftSpace]. rewrite (asciiSpace_text c H).
  destruct s as [|b s]; [reflexivity|]. rewrite (space2_lead c b H).
  destruct s as [|d s]; [reflexivity|]. now rewrite (space3_lead c b d H).
Qed.

Lemma trimLeftSpaceRev_text (c : ascii) (s : string) :
  textByte c = true -> strings.trimLeftSpaceRev (String c s) = String c s.
Proof.
  intros H. cbn [strings.trimLeftSpaceRev]. rewrite (asciiSpace_text c H).
  destruct s as [|b s]; [reflexivity|]. rewrite (space2_last b c H).
  destruct s as [|d s]; [reflexivity|]. now rewrite (space3_last d b c H).
Qed.

(** [TrimSpace] leaves a text without spaces as it is. *)
Lemma TrimSpace_text (s : string) :
  allBytes textByte s = true -> strings.TrimSpace s = s.
Proof.
  intros H. unfold strings.TrimSpace.
  destruct s as [|c s]; [reflexivity|].
  pose proof H as H'. cbn [allBytes] in H'. apply andb_prop in H' as [Hc _].
  rewrite (trimLeftSpace_text c s Hc).
  rewrite <- allBytes_rev in H.
  destruct (strings.rev (String c s)) as [|d r] eqn:E.
  - apply (f_equal strings.rev) in E. rewrite rev_rev in E. discriminate E.
  - cbn [allBytes] in H. apply andb_prop in H as [Hd _].
    rewrite (trimLeftSpaceRev_text d r Hd), <- E. apply rev_rev.
Qed.

Lemma isDigit_text (c : ascii) : strconv.isDigit c = true -> textByte c = true.
Proof.
  unfold strconv.isDigit, textByte. intros H. apply andb_prop in H as [H1 H2].
  apply Nat.leb_le in H1, H2.
  apply andb_true_intro. split; [apply Nat.leb_le|apply Nat.ltb_lt]; lia.
Qed.

Lemma FormatInt_text (v : Z) : allBytes textByte (strconv.FormatInt v) = true.
Proof.
  destruct v as [|p|p].
  - reflexivity.
  - rewrite FormatInt_pos.
    apply (allBytes_impl strconv.isDigit); [exact isDigit_text|apply digits_allBytes].
  - rewrite FormatInt_neg. cbn [allBytes].
    rewrite (allBytes_impl strconv.isDigit textByte _ isDigit_text (digits_allBytes _)).
    reflexivity.
Qed.

Lemma FormatInt_nonempty (v : Z) : String.eqb (strconv.FormatInt v) "" = false.
Proof.
  destruct v as [|p|p]; [reflexivity| |now rewrite FormatInt_neg].
  rewrite FormatInt_pos. destruct (digits_head p) as [c [s [-> _]]]. reflexivity.
Qed.

Lemma FormatUint_FormatInt (v : Z) : 0 <= v -> strconv.FormatUint v = strconv.FormatInt v.
Proof.
  intros H. destruct v as [|p|p]; [reflexivity| |lia].
  now rewrite FormatUint_pos, FormatInt_pos.
Qed.

(** ** Composition of paths *)

Section Composition.

Variable lib : GoLib.
Variable rec : tree -> string -> outcome Result.

(** The loop looks at the segments still to visit only: the segments
    already visited do not matter. *)
Lemma walk_shift :
  forall rest pre pre' current,
    walk lib rec (pre ++ rest) (sliceLen pre) rest current
    = walk lib rec (pre' ++ rest) (sliceLen pre') rest current.
Proof.
  induction rest as [|part rest IH]; intros pre pre' current; [reflexivity|].
  assert (IH' : forall cur,
             walk lib rec (pre ++ part :: rest) (sliceLen pre + 1) rest cur
             = walk lib rec (pre' ++ part :: rest) (sliceLen pre' + 1) rest cur).
  { intros cur. specialize (IH (pre ++ [part])%list (pre' ++ [part])%list cur).
    now rewrite <- !app_assoc, !sliceLen_app in IH. }
  cbn [walk].
  destruct (String.eqb part ""); [apply IH'|].
  destruct (String.eqb part "#").
  { rewrite !last_test_eq. destruct rest; [reflexivity|].
    now rewrite !sliceFrom_app. }
  destruct (strings.HasPrefix part "#(" && strings.HasSuffix part ")").
  { destruct (strSlice part 2 (strings.len part - 1)); cbn [bind]; try reflexivity.
    destruct (negb (Exists (handleArrayQuery lib current a))); [reflexivity|].
    rewrite !more_test_eq. destruct rest; [reflexivity|].
    now rewrite !sliceFrom_app. }
  cbn [negb]. rewrite andb_true_r.
  destruct (strings.HasPrefix part "#").
  { destruct (stringMapLookup current part); [apply IH'|reflexivity]. }
  destruct (strconv.Atoi part).
  { destruct current; try reflexivity.
    destruct ((z <? 0) || (sliceLen l <=? z)); [reflexivity|].
    destruct (sliceIndex l z); cbn [bind]; try reflexivity. apply IH'. }
  destruct current; try reflexivity.
  - destruct (mapLookup part m); [apply IH'|reflexivity].
  - destruct (mapAnyLookup part m); [apply IH'|reflexivity].
Qed.

Lemma walk_from_start (pre rest : list string) (current : tree) :
  walk lib rec (pre ++ rest) (sliceLen pre) rest current
  = walk lib rec rest 0 rest current.
Proof. exact (walk_shift rest pre [] current). Qed.

End Composition.

Lemma Join_app (a b : list string) :
  a <> [] -> b <> [] ->
  strings.Join (a ++ b) "." = (strings.Join a "." ++ "." ++ strings.Join b ".")%string.
Proof.
  induction a as [|p a IH]; [contradiction|]. intros _ Hb.
  destruct a as [|q a].
  - destruct b as [|r b]; [contradiction|]. reflexivity.
  - cbn [app] in *. rewrite !Join_cons, IH by (discriminate || assumption).
    now rewrite !string_app_assoc.
Qed.

(** [getByPath] as its loop over the segments of the path, a path that is
    empty included. *)
Lemma getByPath_walk_Split (lib : GoLib) (root : tree) (q : string) :
  getByPath lib root q
  = walk lib (getByPath lib) (strings.Split q ".") 0 (strings.Split q ".") root.
Proof.
  destruct (String.eqb_spec q "") as [->|Hq].
  - now rewrite getByPath_empty.
  - rewrite getByPath_unfold. unfold getByPath_body.
    apply String.eqb_neq in Hq. now rewrite Hq.
Qed.

(** The loop over segments that hold no dot, whatever the string they
    join to. *)
Lemma getByPath_walk_parts (lib : GoLib) (root : tree) (parts : list string) :
  parts <> [] ->
  Forall (fun p => noDot p = true) parts ->
  getByPath lib root (strings.Join parts ".")
  = walk lib (getByPath lib) parts 0 parts root.
Proof.
  intros Hne Hdot. rewrite getByPath_walk_Split. now rewrite Split_Join.
Qed.

(** After a prefix of segments that hold no dot, the path splits into the
    prefix and the segments of the rest. *)
Lemma Split_prefix (segs : list string) (q : string) :
  Forall (fun p => noDot p = true) segs ->
  strings.Split (strings.Join segs "." ++ "." ++ q) "."
  = (match segs with [] => [""] | _ => segs end ++ strings.Split q ".")%list.
Proof.
  intros Hdot. destruct segs as [|p segs]; [reflexivity|].
  revert p Hdot. induction segs as [|p' segs IH]; intros p Hdot.
  - inversion Hdot; subst. cbn [strings.Join app]. now apply Split_app_dot.
  - inversion Hdot; subst. rewrite Join_cons, !string_app_assoc.
    rewrite Split_app_dot by assumption.
    cbn [append]. change (String "." (strings.Join (p' :: segs) "." ++ String "." q))
      with ("." ++ (strings.Join (p' :: segs) "." ++ "." ++ q))%string.
    cbn [app]. f_equal.
    replace (strings.Join (p' :: segs) "." ++ String "." q)%string
      with (strings.Join (p' :: segs) "." ++ "." ++ q)%string by reflexivity.
    now apply IH.
Qed.

Lemma getByPath_prefix (lib : GoLib) (root : tree) (segs : list string) (q : string) :
  Forall (fun p => plainSeg p = true) segs ->
  getByPath lib root (strings.Join segs "." ++ "." ++ q)
  = match descend root segs with
    | Some t => getByPath lib t q
    | None => Ok (withType Ty.Null)
    end.
Proof.
  intros Hsegs. rewrite getByPath_walk_Split.
  rewrite (Split_prefix segs q (plain_noDot_all segs Hsegs)).
  destruct segs as [|p segs].
  - cbn [descend app]. rewrite walk_empty.
    rewrite (getByPath_walk_Split lib root q).
    exact (walk_from_start lib _ [""] (strings.Split q ".") root).
  - set (ss := p :: segs) in *.
    destruct (descend root ss) as [t|] eqn:Hd.
    + rewrite (walk_descend lib _ _ ss _ Hsegs 0 root t Hd), Z.add_0_l.
      rewrite (getByPath_walk_Split lib t q). apply walk_from_start.
    + now apply walk_descend_none.
Qed.

(** ** Containers and their accessors *)

(** Along plain segments that lead to a node, the path resolves to the
    Result of the node. *)
Lemma getByPath_descend (lib : GoLib) (root t : tree) (segs : list string) :
  segs <> [] ->
  Forall (fun p => plainSeg p = true) segs ->
  descend root segs = Some t ->
  getByPath lib root (strings.Join segs ".") = Ok (makeResult lib t).
Proof.
  intros Hne Hsegs Hd.
  rewrite getByPath_walk_parts; [|assumption|now apply plain_noDot_all].
  pose proof (walk_descend lib (getByPath lib) segs segs [] Hsegs 0 root t Hd) as H.
  rewrite app_nil_r in H. now rewrite H.
Qed.

Lemma Join_plain_nonempty (segs : list string) :
  segs <> [] -> Forall (fun p => plainSeg p = true) segs ->
  strings.Join segs "." <> "".
Proof.
  intros Hne Hsegs. destruct segs as [|p segs]; [contradiction|].
  apply (Join_nonempty (p :: segs) p); [now left|].
  inversion Hsegs; subst. now apply plainSeg_nonempty.
Qed.

Lemma append_nonempty_r (a b : string) : b <> "" -> (a ++ b)%string <> "".
Proof. intros Hb. destruct a; [exact Hb|discriminate]. Qed.

(** [Result.Get] on a Container whose text decodes. *)
Lemma Result_Get_container (lib : GoLib) (raw : string) (t : tree) (q : string) :
  raw <> "" -> yaml_Unmarshal lib raw = Some t ->
  Result_Get lib (mkResult Ty.YAML raw "" 0%float 0) q
  = if String.eqb q "" then Ok (mkResult Ty.YAML raw "" 0%float 0)
    else getByPath lib t q.
Proof.
  intros Hraw Hu. unfold Result_Get, Get, strings.len. cbn [Type_ Raw Ty.eqb negb].
  rewrite Hu. destruct raw; [contradiction|]. cbn [String.length Z.of_nat Z.eqb].
  destruct q; reflexivity.
Qed.

Lemma nth_map_error {A B : Type} (f : A -> B) (l : list A) (n : nat) (d : B) :
  nth n (map f l) d = match nth_error l n with Some x => f x | None => d end.
Proof.
  revert n. induction l as [|x l IH]; intros [|n]; cbn; try reflexivity. apply IH.
Qed.

Lemma entryLookup_map {A B : Type} (f : A -> B) (key : string) (m : list (string * A)) :
  entryLookup key (map (fun kv => (fst kv, f (snd kv))) m)
  = option_map f (entryLookup key m).
Proof.
  induction m as [|[k v] m IH]; [reflexivity|].
  cbn. destruct (String.eqb k key); [reflexivity|exact IH].
Qed.

Lemma entryLookup_mapLookup (key : string) (m : list (string * tree)) :
  entryLookup key m = mapLookup key m.
Proof. induction m as [|[k v] m IH]; [reflexivity|]. cbn. now rewrite IH. Qed.

Lemma forEachSlice_visit (lib : GoLib) (State : Type)
      (iterator : State -> Result -> Result -> State * bool) (arr : list tree) :
  forall i s,
    forEachSlice lib State iterator i arr s
    = visitFrom iterator i (map (makeResult lib) arr) s.
Proof.
  induction arr as [|v arr IH]; intros i s; [reflexivity|].
  cbn [forEachSlice visitFrom map]. unfold indexKey.
  destruct (iterator s _ _) as [s' more]. destruct more; [apply IH|reflexivity].
Qed.

(** ** Truth values of strings *)

Lemma lowerByte_not_upper (c : ascii) : strings.isUpper (strings.lowerByte c) = false.
Proof.
  unfold strings.lowerByte. destruct (strings.isUpper c) eqn:E; [|exact E].
  unfold strings.isUpper in *. apply andb_prop in E as [H1 H2].
  apply Nat.leb_le in H1, H2.
  rewrite nat_ascii_embedding by lia.
  apply andb_false_intro2. apply Nat.leb_gt. lia.
Qed.

Lemma lowerBytes_head (s : string) (c : ascii) (r : string) :
  strings.lowerBytes s = String c r -> strings.isUpper c = false.
Proof.
  destruct s as [|a s]; [discriminate|]. cbn [strings.lowerBytes].
  intros H. injection H as <- _. apply lowerByte_not_upper.
Qed.

Lemma lowerBytes_not (s : string) (c : ascii) (r : string) :
  strings.isUpper c = true -> String.eqb (strings.lowerBytes s) (String c r) = false.
Proof.
  intros Hc. apply String.eqb_neq. intros E.
  apply lowerBytes_head in E. congruence.
Qed.

Ltac split_on l w :=
  let E := fresh "E" in
  destruct (String.eqb_spec l w) as [E|E]; [try rewrite E; reflexivity|].

(** ** Tokens that start with [#] *)

Section HashTokens.

Variable lib : GoLib.

Lemma Split_cons_nonempty (q : string) :
  exists p ps, strings.Split q "." = p :: ps.
Proof.
  pose proof (Split_nonempty q ".") as H.
  destruct (strings.Split q ".") as [|p ps]; [contradiction|]. eauto.
Qed.

Lemma substring_query (qry : string) :
  String.substring 2 (String.length ("#(" ++ qry ++ ")") - 3) ("#(" ++ qry ++ ")") = qry.
Proof.
  cbn [append String.length String.substring].
  rewrite string_length_app. cbn [String.length].
  replace (S (S (String.length qry + 1)) - 3)%nat with (String.length qry) by lia.
  now rewrite substring_app_prefix.
Qed.

Lemma query_token_shape (qry : string) :
  strings.HasPrefix ("#(" ++ qry ++ ")") "#(" = true
  /\ strings.HasSuffix ("#(" ++ qry ++ ")") ")" = true
  /\ String.eqb ("#(" ++ qry ++ ")") "" = false
  /\ String.eqb ("#(" ++ qry ++ ")") "#" = false.
Proof.
  repeat split.
  - replace ("#(" ++ qry ++ ")")%string with (("#(" ++ qry) ++ ")")%string
      by apply string_app_assoc.
    apply HasSuffix_app.
Qed.

(** The loop on a query segment that is followed by more segments. *)
Lemma walk_query_more (rec : tree -> string -> outcome Result)
      (pre : list string) (qry r : string) (rest : list string) (current : tree) :
  walk lib rec (pre ++ ("#(" ++ qry ++ ")")%string :: r :: rest) (sliceLen pre)
       (("#(" ++ qry ++ ")")%string :: r :: rest) current
  = let result := handleArrayQuery lib current qry in
    if negb (Exists result) then Ok result
    else match reparse lib result with
         | None => Ok (withType Ty.Null)
         | Some parsed => rec parsed (strings.Join (r :: rest) ".")
         end.
Proof.
  destruct (query_token_shape qry) as [Hp [Hs [He Hh]]].
  cbn [walk]. rewrite He, Hh, Hp, Hs. cbn [andb].
  rewrite (query_slice_ok _ Hp Hs), substring_query. cbn [bind].
  cbv zeta. destruct (negb (Exists _)); [reflexivity|].
  rewrite more_test_eq, sliceFrom_app. reflexivity.
Qed.

Lemma getByPath_query_rest (cur : tree) (qry q : string) :
  noDot qry = true ->
  getByPath lib cur ("#(" ++ qry ++ ")." ++ q)
  = let result := handleArrayQuery lib cur qry in
    if negb (Exists result) then Ok result
    else match reparse lib result with
         | None => Ok (withType Ty.Null)
         | Some parsed => getByPath lib parsed q
         end.
Proof.
  intros Hq.
  replace ("#(" ++ qry ++ ")." ++ q)%string
    with (("#(" ++ qry ++ ")") ++ "." ++ q)%string
    by (now rewrite !string_app_assoc).
  rewrite getByPath_walk_Split.
  rewrite Split_app_dot by (rewrite !noDot_app, Hq; reflexivity).
  destruct (Split_cons_nonempty q) as [r [rest Hsplit]]. rewrite Hsplit.
  pose proof (walk_query_more (getByPath lib) [] qry r rest cur) as H.
  cbn [app sliceLen List.length Z.of_nat] in H. rewrite H.
  now rewrite <- Hsplit, Join_Split.
Qed.

(** The loop on a token [#k] that is no query. *)
Lemma walk_hash_key (rec : tree -> string -> outcome Result)
      (parts : list string) (i : Z) (k : string) (rest : list string) (current : tree) :
  countsRest ("#" ++ k) = false ->
  walk lib rec parts i (("#" ++ k)%string :: rest) current
  = match stringMapLookup current ("#" ++ k) with
    | Some v => walk lib rec parts (i + 1) rest v
    | None => handleArrayOperation_body lib rec current k
    end.
Proof.
  unfold countsRest. intros H. apply orb_false_iff in H as [Hh Hq].
  cbn [walk]. replace (String.eqb ("#" ++ k) "") with false by reflexivity.
  rewrite Hh, Hq. cbn [negb andb].
  replace (strings.HasPrefix ("#" ++ k) "#") with true by reflexivity.
  destruct (stringMapLookup current ("#" ++ k)); [reflexivity|].
  change ("#" ++ k)%string with (String "#" k). now rewrite strSlice_tail.
Qed.

(** The loop on [#] followed by more segments. *)
Lemma walk_hash_more (rec : tree -> string -> outcome Result)
      (pre : list string) (r : string) (rest : list string) (current : tree) :
  walk lib rec (pre ++ "#" :: r :: rest) (sliceLen pre) ("#" :: r :: rest) current
  = handleArrayOperation_body lib rec current (strings.Join (r :: rest) ".").
Proof.
  cbn [walk String.eqb Ascii.eqb Bool.eqb].
  now rewrite last_test_eq, sliceFrom_app.
Qed.

Lemma getByPath_hash_dot (cur : tree) (q : string) :
  getByPath lib cur ("#." ++ q) = handleArrayOperation lib cur q.
Proof.
  change ("#." ++ q)%string with ("#" ++ "." ++ q)%string.
  rewrite getByPath_walk_Split, Split_app_dot by reflexivity.
  destruct (Split_cons_nonempty q) as [r [rest Hsplit]]. rewrite Hsplit.
  pose proof (walk_hash_more (getByPath lib) [] r rest cur) as H.
  cbn [app sliceLen List.length Z.of_nat] in H. rewrite H.
  now rewrite <- Hsplit, Join_Split.
Qed.

Lemma collect_gathered (q : string) :
  forall arr acc,
    collect lib (getByPath lib) arr q acc
    = Ok (acc ++ flat_map (gathered lib q) arr)%list.
Proof.
  induction arr as [|item arr IH]; intros acc.
  - cbn. now rewrite List.app_nil_r.
  - cbn [collect flat_map]. unfold gathered at 1.
    destruct (getByPath_total lib item q) as [r ->]. cbn [bind].
    destruct (Exists r); rewrite IH; [now rewrite <- app_assoc|reflexivity].
Qed.

Lemma handleArrayOperation_gathered (cur : tree) (q : string) :
  handleArrayOperation lib cur q
  = Ok (match cur with
        | TSlice arr =>
            makeResult lib (TSlice (if String.eqb q "" then arr
                                    else flat_map (gathered lib q) arr))
        | _ => withType Ty.Null
        end).
Proof.
  unfold handleArrayOperation, handleArrayOperation_body.
  destruct cur; try reflexivity.
  destruct (String.eqb q ""); [reflexivity|].
  now rewrite collect_gathered.
Qed.

End HashTokens.

(** A Result of the resolver for which [Exists] fails is the Null
    result itself. *)
Lemma makeResult_not_exists (lib : GoLib) (v : tree) :
  Exists (makeResult lib v) = false -> makeResult lib v = withType Ty.Null.
Proof.
  destruct v; cbn [makeResult]; try reflexivity; try discriminate.
  - destruct b; discriminate.
  - destruct (yaml_Marshal lib _); [discriminate|reflexivity].
  - destruct (yaml_Marshal lib _); [discriminate|reflexivity].
  - destruct (yaml_Marshal lib _); [discriminate|reflexivity].
  - destruct (yaml_Marshal lib _); [discriminate|reflexivity].
Qed.

Lemma firstMatch_not_exists (lib : GoLib) (arr : list tree) (key op value : string) :
  Exists (firstMatch lib arr key op value) = false ->
  firstMatch lib arr key op value = withType Ty.Null.
Proof.
  induction arr as [|item arr IH]; [reflexivity|]. cbn [firstMatch].
  destruct item; try (destruct (_ && _); [apply makeResult_not_exists|exact IH]).
  destruct (mapLookup key m); [|exact IH].
  destruct (matchesCondition lib t op value); [apply makeResult_not_exists|exact IH].
Qed.

Lemma handleArrayQuery_not_exists (lib : GoLib) (cur : tree) (qry : string) :
  Exists (handleArrayQuery lib cur qry) = false ->
  handleArrayQuery lib cur qry = withType Ty.Null.
Proof.
  unfold handleArrayQuery. destruct cur; try reflexivity.
  destruct (findOperator operators qry) as [[key op] value].
  destruct (if String.eqb op "" then _ else _) as [[[k' o'] v']|]; [|reflexivity].
  apply firstMatch_not_exists.
Qed.

(** ** Predicates *)

Lemma HasPrefix_noByte (c : ascii) (r s : string) :
  noByte c s = true -> strings.HasPrefix s (String c r) = false.
Proof.
  destruct s as [|a s]; [reflexivity|]. cbn [noByte strings.HasPrefix].
  intros H. apply andb_prop in H as [Ha _]. apply negb_true_iff in Ha.
  now rewrite Ha.
Qed.

Lemma Index_noByte2 (a b : ascii) (r s : string) :
  noByte b s = true -> strings.Index s (String a (String b r)) = None.
Proof.
  induction s as [|x s IH]; intros H; [reflexivity|].
  cbn [noByte] in H. apply andb_prop in H as [_ Hs].
  cbn [strings.Index].
  change (strings.HasPrefix (String x s) (String a (String b r)))
    with (Ascii.eqb x a && strings.HasPrefix s (String b r)).
  rewrite (HasPrefix_noByte b r s Hs), andb_false_r.
  now rewrite (IH Hs).
Qed.

Lemma Contains_noByte2 (a b : ascii) (r s : string) :
  noByte b s = true -> strings.Contains s (String a (String b r)) = false.
Proof. intros H. unfold strings.Contains. now rewrite Index_noByte2. Qed.

Lemma Index_at (c : ascii) (r k v : string) :
  noByte c k = true ->
  strings.Index (k ++ String c r ++ v) (String c r) = Some (String.length k).
Proof.
  induction k as [|a k IH]; intros H.
  - cbn [append String.length]. 
    change (String c r ++ v)%string with (String c (r ++ v)).
    cbn [strings.Index strings.HasPrefix].
    now rewrite Ascii.eqb_refl, HasPrefix_app.
  - cbn [noByte] in H. apply andb_prop in H as [Ha Hk].
    apply negb_true_iff in Ha.
    change ((String a k ++ String c r ++ v)%string)
      with (String a (k ++ String c r ++ v)).
    cbn [strings.Index strings.HasPrefix]. rewrite Ha. cbn [andb].
    now rewrite (IH Hk).
Qed.

Lemma SplitN2_at (c : ascii) (r k v : string) :
  noByte c k = true ->
  strings.SplitN2 (k ++ String c r ++ v) (String c r) = [k; v].
Proof.
  intros H. unfold strings.SplitN2. rewrite (Index_at c r k v H).
  rewrite substring_app_prefix. f_equal. f_equal.
  replace (k ++ String c r ++ v)%string with ((k ++ String c r) ++ v)%string
    by (now rewrite string_app_assoc).
  replace (String.length k + String.length (String c r))%nat
    with (String.length (k ++ String c r)) by apply string_length_app.
  rewrite substring_app_skip.
  replace (String.length ((k ++ String c r) ++ v) - String.length (k ++ String c r))%nat
    with (String.length v) by (rewrite (string_length_app (k ++ String c r) v); lia).
  apply substring_all.
Qed.

Lemma opByteFree_bytes (s : string) :
  opByteFree s = true ->
  noByte "<" s = true /\ noByte ">" s = true /\ noByte "!" s = true
  /\ noByte "=" s = true.
Proof.
  unfold opByteFree, opFree. intros H.
  apply andb_prop in H as [H H4]. apply andb_prop in H as [H H3].
  apply andb_prop in H as [H1 H2]. auto.
Qed.

Section Predicates.

Variable lib : GoLib.

Ltac absent :=
  solve [ apply Contains_noByte; rewrite !noByte_app; cbn [noByte];
          repeat (match goal with H : noByte _ _ = true |- _ => rewrite H end);
          reflexivity
        | apply Contains_noByte2; rewrite !noByte_app; cbn [noByte];
          repeat (match goal with H : noByte _ _ = true |- _ => rewrite H end);
          reflexivity ].

Ltac drop pat :=
  match goal with
  | |- context [strings.Contains ?q pat] =>
      let H := fresh in
      assert (H : strings.Contains q pat = false) by absent; rewrite H; clear H
  end.

Ltac found Hk :=
  unfold strings.Contains at 1; rewrite (Index_at _ _ _ _ Hk);
  rewrite (SplitN2_at _ _ _ _ Hk); reflexivity.

(** The operator loop on a predicate text whose key and literal hold no
    operator byte. *)
Lemma findOperator_at (k op v : string) :
  In op operators ->
  opByteFree k = true -> opByteFree v = true ->
  findOperator operators (k ++ op ++ v)
  = (strings.TrimSpace k, op, strings.Trim (strings.TrimSpace v) quotes).
Proof.
  intros Hop Hk Hv.
  destruct (opByteFree_bytes k Hk) as [Hk1 [Hk2 [Hk3 Hk4]]].
  destruct (opByteFree_bytes v Hv) as [Hv1 [Hv2 [Hv3 Hv4]]].
  unfold operators in *. cbn [In] in Hop.
  destruct Hop as [<- | [<- | [<- | [<- | [<- | [<- | []]]]]]];
    cbn [findOperator].
  - found Hk2.
  - drop ">=". found Hk1.
  - drop ">=". drop "<=". found Hk3.
  - drop ">=". drop "<=". drop "!=". found Hk2.
  - drop ">=". drop "<=". drop "!=". drop ">". found Hk1.
  - drop ">=". drop "<=". drop "!=". drop ">". drop "<". found Hk4.
Qed.

Lemma firstMatch_find (arr : list tree) (key op value : string) :
  firstMatch lib arr key op value
  = match find (satisfies lib key op value) arr with
    | Some item => makeResult lib item
    | None => withType Ty.Null
    end.
Proof.
  induction arr as [|item arr IH]; [reflexivity|].
  cbn [firstMatch find]. unfold satisfies at 1.
  destruct item; try (destruct (_ && _); [reflexivity|exact IH]).
  destruct (mapLookup key m); [|exact IH].
  destruct (matchesCondition lib t op value); [reflexivity|exact IH].
Qed.

Lemma operator_nonempty (op : string) : In op operators -> String.eqb op "" = false.
Proof.
  unfold operators. cbn [In].
  intros [<- | [<- | [<- | [<- | [<- | [<- | []]]]]]]; reflexivity.
Qed.

End Predicates.

(** ** The claims *)

(** C1, on the code.  A comparison with a subject that is no number does
    not yield the Null result under the operator [>=]: when
    [strconv.ParseFloat] rejects the text abc, the path [arr.#(>=1)]
    resolves, on a sequence that holds that string, to the string. *)
Theorem nonnumeric_comparison_matches (lib : GoLib) :
  snd (ParseFloat lib "abc") <> None ->
  getByPath lib (TMap [("arr", TSlice [TString "abc"])]) "arr.#(>=1)"
  = Ok (mkResult Ty.String "" "abc" 0%float 0)
  /\ Exists (mkResult Ty.String "" "abc" 0%float 0) = true.
Proof.
  intros H. split; [|reflexivity].
  change "arr.#(>=1)" with (strings.Join (["arr"] ++ [("#(" ++ ">=1" ++ ")")%string]) ".").
  rewrite (getByPath_query_last lib _ (TSlice [TString "abc"]) ["arr"] ">=1");
    [|repeat constructor|reflexivity|reflexivity].
  f_equal.
  change (handleArrayQuery lib (TSlice [TString "abc"]) ">=1")
    with (if matchesCondition lib (TString "abc") ">=" "1"
          then makeResult lib (TString "abc") else withType Ty.Null).
  assert (Hinc : incomparable lib (TString "abc") "1" = true).
  { unfold incomparable, subjectFloat. cbn [Sprint].
    destruct (ParseFloat lib "abc") as [f [e|]]; [reflexivity|].
    now contradiction H. }
  unfold matchesCondition, compareNumbers, incomparable in *.
  destruct (subjectFloat lib (TString "abc")); [|reflexivity].
  destruct (ParseFloat lib "1") as [g [e|]]; [reflexivity|discriminate].
Qed.

Lemma nonnumeric_comparison_matches_witness :
  getByPath exampleLib (TMap [("arr", TSlice [TString "abc"])]) "arr.#(>=1)"
  = Ok (mkResult Ty.String "" "abc" 0%float 0)
  /\ Exists (mkResult Ty.String "" "abc" 0%float 0) = true.
Proof.
  apply (nonnumeric_comparison_matches exampleLib). discriminate.
Defined.

(** C2, on the code.  The path is split at every dot before a query
    token is recognised, so a predicate whose literal holds a dot is never
    evaluated.  Let the plain segments [segs] lead to a sequence, and let
    the literal be [v1.v2], with no dot in [k] and [v1] and the piece
    [#(k=v1] not ending in a closing parenthesis.  The path
    [segs.#(k=v1.v2)] then resolves as the token [#(k=v1] does on its own:
    to the list [handleArrayOperation] collects under the key [(k=v1],
    the piece [v2)] unread.  When [yaml.Marshal] succeeds that is a
    Container, for which [Exists] holds: neither the first matching
    element nor the Null result, whatever the elements are. *)
Theorem dotted_literal_not_evaluated
        (lib : GoLib) (root : tree) (arr : list tree) (segs : list string)
        (k v1 v2 : string) :
  Forall (fun p => plainSeg p = true) segs ->
  descend root segs = Some (TSlice arr) ->
  noDot k = true -> noDot v1 = true ->
  strings.HasSuffix ("#(" ++ k ++ "=" ++ v1) ")" = false ->
  let path := (strings.Join segs "." ++ "." ++ "#(" ++ k ++ "=" ++ v1 ++ "." ++ v2 ++ ")")%string in
  let results := flat_map (gathered lib ("(" ++ k ++ "=" ++ v1)) arr in
  getByPath lib root path = Ok (makeResult lib (TSlice results))
  /\ (forall raw,
         yaml_Marshal lib (TSlice results) = Some raw ->
         getByPath lib root path = Ok (mkResult Ty.YAML raw "" 0%float 0)
         /\ Exists (mkResult Ty.YAML raw "" 0%float 0) = true).
Proof.
  intros Hsegs Hd Hk Hv Hsuf path results.
  assert (Hpath : getByPath lib root path = Ok (makeResult lib (TSlice results))).
  { subst path.
    rewrite (getByPath_prefix lib root segs _ Hsegs), Hd.
    assert (Hc : countsRest ("#" ++ "(" ++ k ++ "=" ++ v1) = false).
    { unfold countsRest. change ("#" ++ "(" ++ k ++ "=" ++ v1)%string
        with ("#(" ++ k ++ "=" ++ v1)%string. rewrite Hsuf. now rewrite andb_false_r. }
    assert (Hdot : noDot ("(" ++ k ++ "=" ++ v1) = true).
    { rewrite !noDot_app, Hk, Hv. reflexivity. }
    replace ("#(" ++ k ++ "=" ++ v1 ++ "." ++ v2 ++ ")")%string
      with ("#" ++ ("(" ++ k ++ "=" ++ v1) ++ "." ++ (v2 ++ ")"))%string
      by (cbn [append]; now rewrite !string_app_assoc).
    rewrite getByPath_walk_Split.
    replace ("#" ++ ("(" ++ k ++ "=" ++ v1) ++ "." ++ v2 ++ ")")%string
      with (("#" ++ "(" ++ k ++ "=" ++ v1) ++ "." ++ (v2 ++ ")"))%string
      by reflexivity.
    rewrite Split_app_dot by exact Hdot.
    rewrite (walk_hash_key lib _ _ _ _ _ _ Hc). cbn [stringMapLookup].
    unfold handleArrayOperation_body.
    replace (String.eqb ("(" ++ k ++ "=" ++ v1) "") with false by reflexivity.
    rewrite collect_gathered. reflexivity. }
  split; [exact Hpath|].
  intros raw Hraw. split; [|reflexivity].
  rewrite Hpath. cbn [makeResult]. now rewrite Hraw.
Qed.

Lemma dotted_literal_not_evaluated_witness :
  fieldEquals exampleLib "k" "1.5" (TMap [("k", TString "1.5")]) = true
  /\ getByPath exampleLib (TMap [("arr", TSlice [TMap [("k", TString "1.5")]])])
               "arr.#(k=1.5)"
     = Ok (mkResult Ty.YAML "[]" "" 0%float 0)
  /\ Ok (mkResult Ty.YAML "[]" "" 0%float 0)
     <> Ok (makeResult exampleLib (TMap [("k", TString "1.5")]))
  /\ Exists (mkResult Ty.YAML "[]" "" 0%float 0) = true.
Proof.
  split; [reflexivity|].
  pose proof (dotted_literal_not_evaluated exampleLib
                (TMap [("arr", TSlice [TMap [("k", TString "1.5")]])])
                [TMap [("k", TString "1.5")]] ["arr"] "k" "1" "5") as H.
  cbv zeta in H.
  destruct H as [_ H]; [repeat constructor|reflexivity|reflexivity|reflexivity|reflexivity|].
  destruct (H "[]" eq_refl) as [H1 H2].
  split; [exact H1|]. split; [|exact H2].
  intros E. discriminate E.
Defined.

(** C3, on the code.  When either side does not parse as a number,
    [compareNumbers] returns 0, so the element fails the operators [>] and
    [<] and satisfies the operators [>=] and [<=]. *)
Theorem ordering_on_incomparable (lib : GoLib) (val : tree) (expected : string) :
  incomparable lib val expected = true ->
  compareNumbers lib val expected = 0
  /\ matchesCondition lib val ">" expected = false
  /\ matchesCondition lib val "<" expected = false
  /\ matchesCondition lib val ">=" expected = true
  /\ matchesCondition lib val "<=" expected = true.
Proof.
  intros H.
  assert (H0 : compareNumbers lib val expected = 0).
  { unfold compareNumbers, incomparable in *.
    destruct (subjectFloat lib val); [|reflexivity].
    destruct (ParseFloat lib expected) as [g [e|]]; [reflexivity|discriminate]. }
  unfold matchesCondition. rewrite H0. repeat split.
Qed.

Lemma ordering_on_incomparable_witness :
  compareNumbers exampleLib (TString "abc") "10" = 0
  /\ matchesCondition exampleLib (TString "abc") ">" "10" = false
  /\ matchesCondition exampleLib (TString "abc") "<" "10" = false
  /\ matchesCondition exampleLib (TString "abc") ">=" "10" = true
  /\ matchesCondition exampleLib (TString "abc") "<=" "10" = true.
Proof.
  apply (ordering_on_incomparable exampleLib (TString "abc") "10"). reflexivity.
Defined.




(** C5, on the code.  For the integer 2^53 + 1, whose raw text is
    retained, [Int] returns the integer and [Uint] returns the rounded
    float, 2^53: [Uint] does not read the raw text.  For a String beyond
    the range of [int64], [Int] returns the largest [int64], not 0. *)
Theorem uint_ignores_raw (lib : GoLib) :
  Raw (makeResult lib (TInt KInt 9007199254740993)) = "9007199254740993"
  /\ Int lib (makeResult lib (TInt KInt 9007199254740993)) = 9007199254740993
  /\ Uint lib (makeResult lib (TInt KInt 9007199254740993)) = 9007199254740992
  /\ Int lib (mkResult Ty.String "" "9223372036854775808" 0%float 0)
     = 9223372036854775807.
Proof. repeat split; vm_compute; reflexivity. Qed.

(** C6, on the code.  After a [#] token, a trailing empty segment is not
    skipped: the path [arr.#.] resolves to the whole sequence as a
    Container, where the path [arr.#] resolves to its length. *)
Theorem hash_then_empty_segment (lib : GoLib) (arr : list tree) :
  getByPath lib (TMap [("arr", TSlice arr)]) "arr.#"
  = Ok (mkResult Ty.Number "" "" (float64_of_Z (sliceLen arr)) 0)
  /\ getByPath lib (TMap [("arr", TSlice arr)]) "arr.#."
     = Ok (makeResult lib (TSlice arr))
  /\ Type_ (makeResult lib (TSlice arr)) <> Ty.Number.
Proof.
  repeat split.
  - cbn. destruct (yaml_Marshal lib (TSlice arr)); discriminate.
Qed.

(** C7, as the code has it.  For every document text other than the empty
    one, [Parse] returns the Container that wraps the text exactly when
    [Valid] holds of it, and the Null result exactly when [Valid] does
    not.  For the empty text [Parse] returns the Null result, whether
    [Valid] holds of it or not. *)
Theorem parse_exactly_when_valid (lib : GoLib) (d : string) :
  Parse lib "" = withType Ty.Null
  /\ (d <> "" ->
      (Parse lib d = mkResult Ty.YAML d "" 0%float 0 <-> Valid lib d = true)
      /\ (Parse lib d = withType Ty.Null <-> Valid lib d = false)).
Proof.
  split; [reflexivity|].
  intros Hd. unfold Parse, Valid, strings.len.
  destruct d as [|c d]; [contradiction|]. cbn [String.length Z.eqb Z.of_nat].
  destruct (yaml_Unmarshal lib (String c d)); split; split; intros H;
    try reflexivity; discriminate H.
Qed.

Lemma parse_exactly_when_valid_witness :
  (Parse exampleLib "a: 1" = mkResult Ty.YAML "a: 1" "" 0%float 0
   <-> Valid exampleLib "a: 1" = true)
  /\ (Parse exampleLib "a: 1" = withType Ty.Null
      <-> Valid exampleLib "a: 1" = false).
Proof.
  apply (proj2 (parse_exactly_when_valid exampleLib "a: 1")). discriminate.
Defined.

(** C7, as the claim has it, fails on the empty document: it is valid,
    and [Parse] returns the Null result for it. *)
Lemma parse_exactly_when_valid_counterexample :
  Valid exampleLib "" = true /\ Parse exampleLib "" = withType Ty.Null.
Proof. split; reflexivity. Qed.

(** C8, as the code has it.  A receiver that is not a Container gives the
    Null result for every path.  A Container whose raw text is not empty
    and decodes gives, for the empty path, the Container of the same raw
    text: that is the receiver itself when its other fields are zero, as
    they are in every Container the package builds. *)
Theorem result_get_round_trip (lib : GoLib) (R : Result) (path : string) :
  (Type_ R <> Ty.YAML -> Result_Get lib R path = Ok (withType Ty.Null))
  /\ (Type_ R = Ty.YAML ->
      Raw R <> "" ->
      yaml_Unmarshal lib (Raw R) <> None ->
      Result_Get lib R "" = Ok (mkResult Ty.YAML (Raw R) "" 0%float 0)
      /\ (Str R = "" -> Num R = 0%float -> Index R = 0 ->
          Result_Get lib R "" = Ok R)).
Proof.
  unfold Result_Get. split.
  - intros H. destruct (Type_ R); try reflexivity. contradiction.
  - intros HT Hraw Hu. rewrite HT. cbn [Ty.eqb negb].
    assert (HG : Get lib (Raw R) "" = Ok (mkResult Ty.YAML (Raw R) "" 0%float 0)).
    { unfold Get, strings.len.
      destruct (Raw R) as [|c raw]; [contradiction|].
      cbn [String.length Z.eqb Z.of_nat].
      destruct (yaml_Unmarshal lib (String c raw)); [reflexivity|contradiction]. }
    split; [exact HG|].
    intros HS HN HI. rewrite HG. destruct R as [ty raw str num idx].
    cbn in *. now subst.
Qed.

Lemma result_get_round_trip_witness :
  Result_Get exampleLib (mkResult Ty.YAML "a: 1" "" 0%float 0) ""
  = Ok (mkResult Ty.YAML "a: 1" "" 0%float 0)
  /\ Result_Get exampleLib (mkResult Ty.String "" "a: 1" 0%float 0) "a"
     = Ok (withType Ty.Null).
Proof.
  split.
  - apply (proj2 (result_get_round_trip exampleLib
                    (mkResult Ty.YAML "a: 1" "" 0%float 0) ""));
      try reflexivity; discriminate.
  - apply (proj1 (result_get_round_trip exampleLib
                    (mkResult Ty.String "" "a: 1" 0%float 0) "a")).
    discriminate.
Defined.

(** C8, as the claim has it, fails on the Container of the empty text:
    the text decodes, and [Get] returns the Null result for it. *)
Lemma result_get_round_trip_counterexample :
  yaml_Unmarshal exampleLib (Raw (mkResult Ty.YAML "" "" 0%float 0)) = Some TNil
  /\ Result_Get exampleLib (mkResult Ty.YAML "" "" 0%float 0) ""
     = Ok (withType Ty.Null)
  /\ Ok (withType Ty.Null) <> Ok (mkResult Ty.YAML "" "" 0%float 0).
Proof. repeat split; try reflexivity. discriminate. Qed.



(** C10.  A token [strconv.Atoi] accepts is always read as a sequence
    index.  When the walk stands on a mapping (with string keys or with
    keys of any type) at such a token, resolution ends with the Null
    result, whatever the entries of the mapping are: an entry whose key is
    the token itself is never reached.  When the walk stands on a sequence
    at such a token, the token selects the element at that index, and
    gives the Null result when the index is negative or past the end.
    The segments before the token are plain ones; the segments after it,
    on a mapping, are arbitrary. *)
Theorem integer_token_on_mapping
        (lib : GoLib) (root t : tree) (segs rest : list string)
        (token : string) (idx : Z) :
  Forall (fun p => plainSeg p = true) segs ->
  Forall (fun p => noDot p = true) rest ->
  strconv.Atoi token = Some idx ->
  descend root segs = Some t ->
  (isMapping t = true ->
   getByPath lib root (strings.Join (segs ++ token :: rest) ".")
   = Ok (withType Ty.Null))
  /\ (forall v, t = TSlice v ->
      getByPath lib root (strings.Join (segs ++ [token]) ".")
      = Ok (if (idx <? 0) || (sliceLen v <=? idx) then withType Ty.Null
            else match nth_error v (Z.to_nat idx) with
                 | Some elem => makeResult lib elem
                 | None => withType Ty.Null
                 end)).
Proof.
  intros Hsegs Hrest Hatoi Hd.
  pose proof (Atoi_plainSeg token idx Hatoi) as Htok.
  assert (Hwalk : forall more,
             Forall (fun p => noDot p = true) more ->
             getByPath lib root (strings.Join (segs ++ token :: more) ".")
             = match stepSeg t token with
               | Some t' =>
                   walk lib (getByPath lib) (segs ++ token :: more)
                        (0 + sliceLen segs + 1) more t'
               | None => Ok (withType Ty.Null)
               end).
  { intros more Hmore. rewrite getByPath_walk.
    - rewrite (walk_descend lib _ _ segs (token :: more) Hsegs 0 root t Hd).
      now rewrite (walk_plain lib _ _ _ _ _ _ Htok).
    - apply Forall_app. split; [now apply plain_noDot_all|].
      constructor; [now apply plainSeg_noDot|assumption].
    - apply (Join_nonempty _ token); [|now apply plainSeg_nonempty].
      apply in_or_app. right. now left. }
  split.
  - intros Hmap. rewrite (Hwalk rest Hrest). unfold stepSeg. rewrite Hatoi.
    destruct t; try discriminate Hmap; reflexivity.
  - intros v ->. rewrite (Hwalk [] (Forall_nil _)). unfold stepSeg. rewrite Hatoi.
    destruct ((idx <? 0) || (sliceLen v <=? idx)); [reflexivity|].
    now destruct (nth_error v (Z.to_nat idx)).
Qed.

Lemma integer_token_on_mapping_witness :
  mapLookup "123" [("123", TString "x")] = Some (TString "x")
  /\ getByPath exampleLib (TMap [("m", TMap [("123", TString "x")])]) "m.123"
     = Ok (withType Ty.Null).
Proof.
  split; [reflexivity|].
  apply (integer_token_on_mapping exampleLib
           (TMap [("m", TMap [("123", TString "x")])])
           (TMap [("123", TString "x")]) ["m"] [] "123" 123).
  - repeat constructor.
  - constructor.
  - reflexivity.
  - reflexivity.
  - reflexivity.
Defined.

(** ** Further properties *)

(** X1.  Totality.  For every tree, document and path the resolver returns a
    Result: the recursion of [getByPath] ends, and no index expression or
    slice expression of [getByPath], [handleArrayOperation] or [Get] is
    out of range. *)
Theorem resolver_total (lib : GoLib) :
  (forall root path, exists r, getByPath lib root path = Ok r)
  /\ (forall current path, exists r, handleArrayOperation lib current path = Ok r)
  /\ (forall yamlStr path, exists r, Get lib yamlStr path = Ok r)
  /\ (forall t path, exists r, Result_Get lib t path = Ok r).
Proof.
  assert (HG : forall yamlStr path, exists r, Get lib yamlStr path = Ok r).
  { intros yamlStr path. unfold Get.
    destruct (strings.len yamlStr =? 0); [eexists; reflexivity|].
    destruct (yaml_Unmarshal lib yamlStr); [|eexists; reflexivity].
    destruct (strings.len path =? 0); [eexists; reflexivity|].
    apply getByPath_total. }
  repeat split.
  - apply getByPath_total.
  - intros current path. apply handleArrayOperation_body_total.
    intros t. apply getByPath_total.
  - exact HG.
  - intros t path. unfold Result_Get.
    destruct (negb _); [eexists; reflexivity|apply HG].
Qed.

(** X2.  Empty segments.  When no [#] token and no query token of the path is
    followed by empty segments only, the path resolves as the path
    without its empty segments does. *)
Theorem empty_segments_skipped (lib : GoLib) (root : tree) (path : string) :
  restSettled (strings.Split path ".") = true ->
  getByPath lib root path
  = getByPath lib root (strings.Join (dropEmpty (strings.Split path ".")) ".").
Proof.
  intros H. rewrite <- (Join_Split path) at 1.
  apply (getByPath_dropEmpty_parts lib
           (S (String.length (strings.Join (strings.Split path ".") ".")))).
  - lia.
  - apply Split_all_noDot.
  - exact H.
Qed.

Lemma empty_segments_skipped_witness :
  getByPath exampleLib janet ".name..last." = getByPath exampleLib janet "name.last".
Proof.
  apply (empty_segments_skipped exampleLib janet ".name..last."). reflexivity.
Defined.

(** X3.  Length.  After plain segments that lead to a node, a final [#] gives
    the number of elements of a sequence or of a mapping with string
    keys, and the Null result on any other node. *)
Theorem length_of_container
        (lib : GoLib) (root target : tree) (segs : list string) :
  Forall (fun p => plainSeg p = true) segs ->
  descend root segs = Some target ->
  getByPath lib root (strings.Join (segs ++ ["#"]) ".")
  = Ok (match target with
        | TSlice v => mkResult Ty.Number "" "" (float64_of_Z (sliceLen v)) 0
        | TMap v => mkResult Ty.Number "" "" (float64_of_Z (sliceLen v)) 0
        | _ => withType Ty.Null
        end).
Proof.
  intros Hsegs Hd. rewrite getByPath_walk.
  - rewrite (walk_descend lib _ _ segs _ Hsegs 0 root target Hd).
    cbn [walk String.eqb Ascii.eqb Bool.eqb]. rewrite Z.add_0_l.
    replace (sliceLen segs =? sliceLen (segs ++ ["#"]) - 1) with true
      by (symmetry; now apply last_index_iff).
    now destruct target.
  - apply Forall_app. split; [now apply plain_noDot_all|repeat constructor].
  - apply (Join_nonempty _ "#"); [|discriminate].
    apply in_or_app. right. now left.
Qed.

Lemma length_of_container_witness :
  getByPath exampleLib
            (TMap [("children", TSlice [TString "Sara"; TString "Alex"; TString "Jack"])])
            "children.#"
  = Ok (mkResult Ty.Number "" "" 3%float 0).
Proof.
  apply (length_of_container exampleLib
           (TMap [("children", TSlice [TString "Sara"; TString "Alex"; TString "Jack"])])
           (TSlice [TString "Sara"; TString "Alex"; TString "Jack"]) ["children"]).
  - repeat constructor.
  - reflexivity.
Defined.

(** X4.  Ordering on numbers.  When both sides parse, the four ordering
    operators compare the two floats. *)
Theorem ordering_on_numbers
        (lib : GoLib) (val : tree) (expected : string) (a b : float) :
  subjectFloat lib val = Some a ->
  ParseFloat lib expected = (b, None) ->
  matchesCondition lib val ">" expected = PrimFloat.ltb b a
  /\ matchesCondition lib val "<" expected
     = negb (PrimFloat.ltb b a) && PrimFloat.ltb a b
  /\ matchesCondition lib val ">=" expected
     = PrimFloat.ltb b a || negb (PrimFloat.ltb a b)
  /\ matchesCondition lib val "<=" expected = negb (PrimFloat.ltb b a).
Proof.
  intros Ha Hb. unfold matchesCondition, compareNumbers. rewrite Ha, Hb.
  cbn [String.eqb Ascii.eqb Bool.eqb].
  destruct (PrimFloat.ltb b a), (PrimFloat.ltb a b); repeat split.
Qed.

Lemma ordering_on_numbers_witness :
  matchesCondition exampleLib (TInt KInt 68) ">" "50" = true
  /\ matchesCondition exampleLib (TInt KInt 68) "<" "50" = false
  /\ matchesCondition exampleLib (TInt KInt 68) ">=" "50" = true
  /\ matchesCondition exampleLib (TInt KInt 68) "<=" "50" = false.
Proof.
  apply (ordering_on_numbers exampleLib (TInt KInt 68) "50" 68%float 50%float);
    reflexivity.
Defined.

(** X5.  Integers survive the round trip through a Result.  For every
    integer [v] in the range of [int64], of any width, the Result that
    [makeResult] builds gives [v] back under [Int], and its [String] is the
    decimal text of [v], which [strconv.ParseInt] reads as [v]; an
    unsigned integer in that range gives [v] under [Int] as well.  The
    float the Result carries is not consulted. *)
Theorem integer_round_trip (lib : GoLib) (k : intKind) (v : Z) :
  strconv.minInt64 <= v <= strconv.maxInt64 ->
  Int lib (makeResult lib (TInt k v)) = v
  /\ Result_String lib (makeResult lib (TInt k v)) = strconv.FormatInt v
  /\ strconv.ParseInt (Result_String lib (makeResult lib (TInt k v))) = (v, None)
  /\ forall ku, 0 <= v -> Int lib (makeResult lib (TUint ku v)) = v.
Proof.
  intros Hv.
  assert (HI : Int lib (mkResult Ty.Number (strconv.FormatInt v) ""
                                 (float64_of_Z v) 0) = v).
  { unfold Int. cbn [Type_ Raw]. rewrite FormatInt_nonempty. cbn [negb].
    rewrite (TrimSpace_text _ (FormatInt_text v)), (ParseInt_FormatInt v Hv).
    reflexivity. }
  assert (HS : Result_String lib (makeResult lib (TInt k v)) = strconv.FormatInt v).
  { unfold Result_String. cbn [makeResult Type_ Raw]. unfold strings.len.
    pose proof (FormatInt_nonempty v) as Hne.
    destruct (strconv.FormatInt v); [discriminate Hne|reflexivity]. }
  repeat split.
  - exact HI.
  - exact HS.
  - rewrite HS. now apply ParseInt_FormatInt.
  - intros ku H0. cbn [makeResult]. rewrite (FormatUint_FormatInt v H0). exact HI.
Qed.

Lemma integer_round_trip_witness :
  Int exampleLib (makeResult exampleLib (TInt KInt64 (-9223372036854775808)))
  = -9223372036854775808.
Proof.
  apply (integer_round_trip exampleLib KInt64 (-9223372036854775808)).
  unfold strconv.minInt64, strconv.maxInt64. lia.
Defined.

(** X6.  First match.  Let the plain segments [segs] lead from the root of the document
    [D] to the node [target], and let [k] and [v] be a key and a literal
    that the predicate text [k=v] spells as they are: [k] is not empty,
    neither holds a dot or a byte of an ordering or inequality operator,
    [k] holds no equals sign, and trimming leaves both unchanged.  When
    [target] is a sequence, the path [segs.#(k=v)] resolves to the element
    at the smallest index that is a mapping with the field [k] whose
    rendering is exactly [v] (elements without the field, and elements
    that are no such mapping, are passed over), and to the Null result
    when no element is one; when [target] is not a sequence it resolves to
    the Null result. *)
Theorem query_first_match
        (lib : GoLib) (D : string) (root target : tree)
        (segs : list string) (k v : string) :
  D <> "" ->
  yaml_Unmarshal lib D = Some root ->
  Forall (fun p => plainSeg p = true) segs ->
  descend root segs = Some target ->
  k <> "" ->
  noDot k = true -> noDot v = true ->
  noByte "=" k = true -> opFree k = true -> opFree v = true ->
  strings.TrimSpace k = k ->
  strings.Trim (strings.TrimSpace v) quotes = v ->
  let path := strings.Join (segs ++ [("#(" ++ k ++ "=" ++ v ++ ")")%string]) "." in
  match target with
  | TSlice arr =>
      (forall (i : nat) (item : tree),
          nth_error arr i = Some item ->
          fieldEquals lib k v item = true ->
          (forall j other, (j < i)%nat -> nth_error arr j = Some other ->
                           fieldEquals lib k v other = false) ->
          Get lib D path = Ok (makeResult lib item))
      /\ ((forall item, In item arr -> fieldEquals lib k v item = false) ->
          Get lib D path = Ok (withType Ty.Null))
  | _ => Get lib D path = Ok (withType Ty.Null)
  end.
Proof.
  intros HD Hu Hsegs Hd Hk Hdk Hdv Heq Hok Hov Htk Htv path.
  assert (Hpath : Get lib D path = Ok (handleArrayQuery lib target (k ++ "=" ++ v))).
  { rewrite (Get_getByPath lib D path root HD); [|
      apply (Join_nonempty _ ("#(" ++ (k ++ "=" ++ v) ++ ")")%string);
      [apply in_or_app; right; left; now rewrite !string_app_assoc|discriminate]
    |exact Hu].
    subst path.
    replace ("#(" ++ k ++ "=" ++ v ++ ")")%string
      with ("#(" ++ (k ++ "=" ++ v) ++ ")")%string
      by (now rewrite !string_app_assoc).
    apply getByPath_query_last; [assumption|assumption|].
    rewrite !noDot_app, Hdk, Hdv. reflexivity. }
  rewrite Hpath.
  destruct target; try reflexivity.
  rewrite (handleArrayQuery_equals lib l k v Heq Hok Hov Htk Htv). split.
  - intros i item Hi Hit Hmin. f_equal.
    now apply (firstMatch_smallest lib l k v Hk i).
  - intros Hnone. f_equal. now apply firstMatch_none.
Qed.

Lemma query_first_match_witness :
  Get exampleLib "arr: [{k: a}, {k: v}, {j: v}]" "arr.#(k=v)"
  = Ok (makeResult exampleLib (TMap [("k", TString "v")])).
Proof.
  pose proof (query_first_match exampleLib "arr: [{k: a}, {k: v}, {j: v}]"
                (TMap [("arr", TSlice [TMap [("k", TString "a")];
                                       TMap [("k", TString "v")];
                                       TMap [("j", TString "v")]])])
                (TSlice [TMap [("k", TString "a")];
                         TMap [("k", TString "v")];
                         TMap [("j", TString "v")]])
                ["arr"] "k" "v") as H.
  cbv zeta in H.
  refine (proj1 (H _ _ _ _ _ _ _ _ _ _ _ _) 1%nat (TMap [("k", TString "v")]) _ _ _);
    try reflexivity; try discriminate.
  - repeat constructor.
  - intros j other Hj Ho. destruct j as [|j]; [|lia].
    injection Ho as <-. reflexivity.
Defined.

(** X7.  Composition.  A path that starts with plain segments resolves
    as the rest of the path does from the node these segments lead to, and
    to the Null result when they lead nowhere, whatever the rest of the
    path is: keys, indices, [#] tokens, queries, empty segments. *)
Theorem path_composition (lib : GoLib) (root : tree) (segs : list string) (q : string) :
  Forall (fun p => plainSeg p = true) segs ->
  getByPath lib root (strings.Join segs "." ++ "." ++ q)
  = match descend root segs with
    | Some t => getByPath lib t q
    | None => Ok (withType Ty.Null)
    end.
Proof. exact (getByPath_prefix lib root segs q). Qed.

Lemma path_composition_witness :
  getByPath exampleLib (TMap [("friends", TSlice [dale; roger])]) "friends.1.first"
  = getByPath exampleLib roger "first".
Proof.
  apply (path_composition exampleLib (TMap [("friends", TSlice [dale; roger])])
           ["friends"; "1"] "first").
  repeat constructor.
Defined.

(** X8.  Chaining.  Let the plain segments [segs] lead, in the document
    [D], to a node that [makeResult] renders as a Container, and let the
    text of the Container decode to that node again.  Then [Get] on the
    path [segs], followed by [Result.Get] on any path [q], gives what
    [Get] on the joined path [segs.q] gives. *)
Theorem chained_get (lib : GoLib) (D : string) (root t : tree)
        (segs : list string) (raw q : string) :
  D <> "" ->
  yaml_Unmarshal lib D = Some root ->
  segs <> [] ->
  Forall (fun p => plainSeg p = true) segs ->
  descend root segs = Some t ->
  makeResult lib t = mkResult Ty.YAML raw "" 0%float 0 ->
  raw <> "" ->
  yaml_Unmarshal lib raw = Some t ->
  exists r,
    Get lib D (strings.Join segs ".") = Ok r
    /\ Result_Get lib r q = Get lib D (strings.Join segs "." ++ "." ++ q).
Proof.
  intros HD Hu Hne Hsegs Hd Hmk Hraw Hround.
  exists (makeResult lib t). split.
  - rewrite (Get_getByPath lib D _ root HD); [| |exact Hu].
    + now apply getByPath_descend.
    + now apply Join_plain_nonempty.
  - rewrite (Get_getByPath lib D _ root HD); [| |exact Hu].
    + rewrite (getByPath_prefix lib root segs q Hsegs), Hd, Hmk.
      rewrite (Result_Get_container lib raw t q Hraw Hround).
      destruct (String.eqb_spec q "") as [->|]; [|reflexivity].
      now rewrite getByPath_empty, Hmk.
    + apply append_nonempty_r. discriminate.
Qed.

Lemma chained_get_witness :
  exists r,
    Get exampleLib
        "friends: [{first: Dale, last: Murphy, age: 44}, {first: Roger, last: Craig, age: 68}]"
        "friends.1" = Ok r
    /\ Result_Get exampleLib r "first"
       = Get exampleLib
             "friends: [{first: Dale, last: Murphy, age: 44}, {first: Roger, last: Craig, age: 68}]"
             "friends.1.first".
Proof.
  apply (chained_get exampleLib _ (TMap [("friends", TSlice [dale; roger])]) roger
           ["friends"; "1"] (emit roger) "first").
  - discriminate.
  - reflexivity.
  - discriminate.
  - repeat constructor.
  - reflexivity.
  - reflexivity.
  - discriminate.
  - reflexivity.
Defined.

(** X9.  [Array] and [Get] agree.  For a Container whose text decodes to
    a sequence, [Array] gives one Result for each element, and
    [Result.Get] on the decimal text of an index [i] gives the Result at
    that position of [Array] when [i] is within bounds, and the Null
    result when [i] is negative or past the end. *)
Theorem array_index_agrees (lib : GoLib) (t : Result) (arr : list tree) (i : Z) :
  Type_ t = Ty.YAML ->
  Raw t <> "" ->
  yaml_Unmarshal lib (Raw t) = Some (TSlice arr) ->
  strconv.minInt64 <= i <= strconv.maxInt64 ->
  exists rs,
    Result_Array lib t = Some rs
    /\ List.length rs = List.length arr
    /\ Result_Get lib t (strconv.FormatInt i)
       = Ok (if i <? 0 then withType Ty.Null
             else nth (Z.to_nat i) rs (withType Ty.Null)).
Proof.
  intros HT Hraw Hu Hi.
  exists (map (makeResult lib) arr). repeat split.
  - unfold Result_Array. now rewrite HT, Hu.
  - apply length_map.
  - pose proof (Atoi_FormatInt i Hi) as Ha.
    pose proof (Atoi_plainSeg _ _ Ha) as Hp.
    unfold Result_Get. rewrite HT. cbn [Ty.eqb negb].
    rewrite (Get_getByPath lib (Raw t) _ (TSlice arr) Hraw
               (plainSeg_nonempty _ Hp) Hu).
    rewrite (getByPath_plain lib _ _ Hp). f_equal.
    unfold stepSeg. rewrite Ha, nth_map_error.
    destruct (Z.ltb_spec i 0) as [Hneg|Hpos]; [reflexivity|]. cbn [orb].
    destruct (Z.leb_spec (sliceLen arr) i) as [Hout|Hin].
    + destruct (nth_error arr (Z.to_nat i)) eqn:E; [|reflexivity].
      assert (nth_error arr (Z.to_nat i) <> None) as Hn by congruence.
      apply nth_error_Some in Hn. unfold sliceLen in Hout. lia.
    + now destruct (nth_error arr (Z.to_nat i)).
Qed.

Lemma array_index_agrees_witness :
  exists rs,
    Result_Array sequenceLib (mkResult Ty.YAML "[Sara, Alex, Jack]" "" 0%float 0)
    = Some rs
    /\ List.length rs = 3%nat
    /\ Result_Get sequenceLib (mkResult Ty.YAML "[Sara, Alex, Jack]" "" 0%float 0)
                  (strconv.FormatInt 1)
       = Ok (nth 1 rs (withType Ty.Null)).
Proof.
  apply (array_index_agrees sequenceLib
           (mkResult Ty.YAML "[Sara, Alex, Jack]" "" 0%float 0)
           [TString "Sara"; TString "Alex"; TString "Jack"] 1).
  - reflexivity.
  - discriminate.
  - reflexivity.
  - unfold strconv.minInt64, strconv.maxInt64. lia.
Defined.

(** X10.  [Map] and [Get] agree.  For a Container whose text decodes to
    a mapping with string keys, [Map] has the keys of the mapping, and
    [Result.Get] on a plain key that is no integer gives the entry of [Map]
    under that key, and the Null result when there is none. *)
Theorem map_key_agrees (lib : GoLib) (t : Result) (obj : list (string * tree))
        (k : string) :
  Type_ t = Ty.YAML ->
  Raw t <> "" ->
  yaml_Unmarshal lib (Raw t) = Some (TMap obj) ->
  plainSeg k = true ->
  strconv.Atoi k = None ->
  exists m,
    Result_Map lib t = Some m
    /\ map fst m = map fst obj
    /\ Result_Get lib t k
       = Ok (match entryLookup k m with
             | Some r => r
             | None => withType Ty.Null
             end).
Proof.
  intros HT Hraw Hu Hp Ha.
  exists (map (fun kv => (fst kv, makeResult lib (snd kv))) obj). repeat split.
  - unfold Result_Map. now rewrite HT, Hu.
  - rewrite map_map. reflexivity.
  - unfold Result_Get. rewrite HT. cbn [Ty.eqb negb].
    rewrite (Get_getByPath lib (Raw t) _ (TMap obj) Hraw
               (plainSeg_nonempty _ Hp) Hu).
    rewrite (getByPath_plain lib _ _ Hp). f_equal.
    rewrite (stepSeg_key _ _ Ha). cbn [fieldOf].
    rewrite entryLookup_map, entryLookup_mapLookup.
    now destruct (mapLookup k obj).
Qed.

Lemma map_key_agrees_witness :
  exists m,
    Result_Map exampleLib (mkResult Ty.YAML "a: 1" "" 0%float 0) = Some m
    /\ map fst m = ["a"]
    /\ Result_Get exampleLib (mkResult Ty.YAML "a: 1" "" 0%float 0) "a"
       = Ok (match entryLookup "a" m with
             | Some r => r
             | None => withType Ty.Null
             end).
Proof.
  apply (map_key_agrees exampleLib (mkResult Ty.YAML "a: 1" "" 0%float 0)
           [("a", TInt KInt 1)] "a"); try reflexivity; discriminate.
Defined.

(** X11.  [ForEach] and [Array].  On a receiver for which [Array] gives
    a list, [ForEach] passes the Results of that list to the iterator, in
    order, each with its index as a Number key, and stops after the first
    call that returns false.  On a receiver for which [Array] and [Map]
    both give nil (a scalar, the Null result, a text that does not decode,
    a mapping with keys that are no strings) the iterator is never
    called. *)
Theorem foreach_visits_array (lib : GoLib) (State : Type)
        (iterator : State -> Result -> Result -> State * bool)
        (t : Result) (s : State) :
  match Result_Array lib t with
  | Some rs => ForEach lib State iterator t s = visitFrom iterator 0 rs s
  | None => Result_Map lib t = None -> ForEach lib State iterator t s = s
  end.
Proof.
  unfold Result_Array, Result_Map, ForEach, Exists.
  destruct (Type_ t); cbn [Ty.eqb negb]; try (intros _; reflexivity).
  destruct (yaml_Unmarshal lib (Raw t)) as [any|]; [|intros _; reflexivity].
  destruct any; try (intros _; reflexivity).
  - apply forEachSlice_visit.
  - discriminate.
Qed.

(** X12.  The truth value of a String.  For a String of ASCII bytes,
    [Bool] is true exactly when the text, upper-case letters lowered, is one
    of true, yes, on, 1 and t; every other text, the words y and n
    included, gives false. *)
Theorem truth_of_string (mapLower : string -> string) (s : string) :
  strings.isASCII s = true ->
  Result_Bool mapLower (mkResult Ty.String "" s 0%float 0)
  = let lower := strings.lowerBytes s in
    String.eqb lower "true" || String.eqb lower "yes" || String.eqb lower "on"
    || String.eqb lower "1" || String.eqb lower "t".
Proof.
  intros Hs. unfold Result_Bool, strings.ToLower. cbn [Type_ Str]. rewrite Hs.
  cbv zeta. unfold strconv.ParseBool.
  rewrite (lowerBytes_not s "T" "") by reflexivity.
  rewrite (lowerBytes_not s "T" "RUE") by reflexivity.
  rewrite (lowerBytes_not s "T" "rue") by reflexivity.
  rewrite (lowerBytes_not s "F" "") by reflexivity.
  rewrite (lowerBytes_not s "F" "ALSE") by reflexivity.
  rewrite (lowerBytes_not s "F" "alse") by reflexivity.
  remember (strings.lowerBytes s) as l eqn:Hl. clear Hl.
  split_on l "true". split_on l "yes". split_on l "on". split_on l "1".
  split_on l "false". split_on l "no". split_on l "off". split_on l "0".
  split_on l "". split_on l "t". split_on l "f".
  reflexivity.
Qed.

Lemma truth_of_string_witness :
  Result_Bool (fun s => s) (mkResult Ty.String "" "YES" 0%float 0) = true.
Proof.
  apply (truth_of_string (fun s => s) "YES"). reflexivity.
Defined.

(** X13.  The number an ordering comparison reads.  For an integer of
    any width within the range of its type, and for a float, the subject
    [compareNumbers] compares is the float that [Float] gives for the
    Result of the value: the detour of the narrower integer types through
    their decimal text loses nothing. *)
Theorem comparison_reads_float (lib : GoLib) (val : tree) :
  numericInRange val = true ->
  subjectFloat lib val = Some (Result_Float lib (makeResult lib val)).
Proof.
  intros H. destruct val; try discriminate H; cbn [numericInRange] in H;
    try reflexivity.
  - apply andb_prop in H as [H1 H2]. apply Z.leb_le in H1, H2.
    unfold subjectFloat. cbn [Sprint].
    rewrite (ParseInt_FormatInt n (conj H1 H2)). now destruct k.
  - apply andb_prop in H as [H1 H2]. apply Z.leb_le in H1, H2.
    unfold subjectFloat. cbn [Sprint].
    now rewrite (ParseUint_FormatUint n (conj H1 H2)).
Qed.

Lemma comparison_reads_float_witness :
  subjectFloat exampleLib (TInt KInt8 (-5))
  = Some (Result_Float exampleLib (makeResult exampleLib (TInt KInt8 (-5)))).
Proof.
  apply (comparison_reads_float exampleLib (TInt KInt8 (-5))). reflexivity.
Defined.

(** X14.  A query followed by more segments.  When the query matches no
    element the path resolves to the Null result.  Otherwise the rest of
    the path is resolved from the matched element: from the tree its text
    decodes to when it is a Container (the Null result when the text does
    not decode), and from its [Value] when it is a scalar. *)
Theorem query_then_rest (lib : GoLib) (cur : tree) (qry q : string) :
  noDot qry = true ->
  getByPath lib cur ("#(" ++ qry ++ ")." ++ q)
  = let result := handleArrayQuery lib cur qry in
    if negb (Exists result) then Ok (withType Ty.Null)
    else match Type_ result with
         | Ty.YAML =>
             match yaml_Unmarshal lib (Raw result) with
             | Some parsed => getByPath lib parsed q
             | None => Ok (withType Ty.Null)
             end
         | _ => getByPath lib (Value lib result) q
         end.
Proof.
  intros Hq. rewrite (getByPath_query_rest lib cur qry q Hq). cbv zeta.
  unfold reparse.
  destruct (Exists (handleArrayQuery lib cur qry)) eqn:E; cbn [negb].
  - destruct (Type_ (handleArrayQuery lib cur qry)); reflexivity.
  - f_equal. now apply handleArrayQuery_not_exists.
Qed.

Lemma query_then_rest_witness :
  getByPath exampleLib (TSlice [dale; roger]) "#(first=Roger).last"
  = getByPath exampleLib roger "last".
Proof.
  apply (query_then_rest exampleLib (TSlice [dale; roger]) "first=Roger" "last").
  reflexivity.
Defined.

(** X15.  A token [#k] that is neither [#] nor a query.  On a mapping
    with string keys that holds the literal key [#k], the token is that
    key, and the rest of the path is resolved from its value.  On any
    other node the token is the broadcast [#.k], and the segments that
    follow it are not read. *)
Theorem hash_key_token (lib : GoLib) (cur : tree) (k q : string) :
  noDot k = true ->
  countsRest ("#" ++ k) = false ->
  getByPath lib cur ("#" ++ k ++ "." ++ q)
  = match stringMapLookup cur ("#" ++ k) with
    | Some v => getByPath lib v q
    | None => getByPath lib cur ("#." ++ k)
    end
  /\ getByPath lib cur ("#" ++ k)
     = match stringMapLookup cur ("#" ++ k) with
       | Some v => Ok (makeResult lib v)
       | None => getByPath lib cur ("#." ++ k)
       end.
Proof.
  intros Hk Hc. rewrite getByPath_hash_dot. split.
  - replace ("#" ++ k ++ "." ++ q)%string with (("#" ++ k) ++ "." ++ q)%string
      by (now rewrite !string_app_assoc).
    rewrite getByPath_walk_Split, Split_app_dot by exact Hk.
    rewrite (walk_hash_key lib _ _ _ _ _ _ Hc).
    destruct (stringMapLookup cur ("#" ++ k)); [|reflexivity].
    rewrite (getByPath_walk_Split lib t q).
    exact (walk_from_start lib _ [("#" ++ k)%string] (strings.Split q ".") t).
  - rewrite getByPath_walk_Split, Split_noDot by exact Hk.
    rewrite (walk_hash_key lib _ _ _ _ _ _ Hc).
    now destruct (stringMapLookup cur ("#" ++ k)).
Qed.

Lemma hash_key_token_witness :
  getByPath exampleLib (TSlice [dale; roger]) "#first.anything"
  = getByPath exampleLib (TSlice [dale; roger]) "#.first".
Proof.
  apply (hash_key_token exampleLib (TSlice [dale; roger]) "first" "anything");
    reflexivity.
Defined.

(** X16.  Broadcast.  On a sequence, the path [#.q] resolves to the
    Container of the list that holds, in order, the [Value] of what [q]
    resolves to from each element, the elements for which that does not
    exist left out; with [q] empty it resolves to the Container of the
    sequence itself.  On any other node it resolves to the Null result. *)
Theorem broadcast_collects (lib : GoLib) (cur : tree) (q : string) :
  getByPath lib cur ("#." ++ q)
  = Ok (match cur with
        | TSlice arr =>
            makeResult lib (TSlice (if String.eqb q "" then arr
                                    else flat_map (gathered lib q) arr))
        | _ => withType Ty.Null
        end).
Proof. rewrite getByPath_hash_dot. apply handleArrayOperation_gathered. Qed.

(** X17.  The reading of a predicate.  Let [op] be one of the six
    operators, and let [k] and [v] hold no byte of an operator.  On a
    sequence, the predicate text [k op v] selects the first element that
    satisfies the operator [op] for the key [k] with the white space around
    it removed and the literal [v] with the white space and the quotes
    around it removed: a mapping with string keys is tested on its field
    under the key, any other element is tested itself, and only when the key
    is empty. *)
Theorem predicate_semantics (lib : GoLib) (arr : list tree) (k op v : string) :
  In op operators ->
  opByteFree k = true -> opByteFree v = true ->
  handleArrayQuery lib (TSlice arr) (k ++ op ++ v)
  = match find (satisfies lib (strings.TrimSpace k) op
                          (strings.Trim (strings.TrimSpace v) quotes)) arr with
    | Some item => makeResult lib item
    | None => withType Ty.Null
    end.
Proof.
  intros Hop Hk Hv. unfold handleArrayQuery.
  rewrite (findOperator_at k op v Hop Hk Hv), (operator_nonempty op Hop).
  apply firstMatch_find.
Qed.

Lemma predicate_semantics_witness :
  handleArrayQuery exampleLib (TSlice [dale; roger]) (" age " ++ ">=" ++ " '68' ")
  = makeResult exampleLib roger.
Proof.
  apply (predicate_semantics exampleLib [dale; roger] " age " ">=" " '68' ").
  - left. reflexivity.
  - reflexivity.
  - reflexivity.
Defined.

(** X18.  A predicate without operator.  A predicate text that holds
    none of the bytes [=], [<] and [>] selects nothing: the query gives the
    Null result on every node. *)
Theorem predicate_without_operator (lib : GoLib) (cur : tree) (q : string) :
  noByte "=" q = true -> noByte "<" q = true -> noByte ">" q = true ->
  handleArrayQuery lib cur q = withType Ty.Null
  /\ (noDot q = true ->
      getByPath lib cur ("#(" ++ q ++ ")") = Ok (withType Ty.Null)).
Proof.
  intros He Hl Hg.
  assert (H : handleArrayQuery lib cur q = withType Ty.Null).
  { unfold handleArrayQuery. destruct cur; try reflexivity.
    unfold operators. cbn [findOperator].
    rewrite (Contains_noByte ">" "=" q Hg), (Contains_noByte "<" "=" q Hl),
      (Contains_noByte2 "!" "=" "" q He), (Contains_noByte ">" "" q Hg),
      (Contains_noByte "<" "" q Hl), (Contains_noByte "=" "" q He).
    reflexivity. }
  split; [exact H|]. intros Hd.
  pose proof (getByPath_query_last lib cur cur [] q (Forall_nil _) eq_refl Hd) as HQ.
  cbn [app strings.Join] in HQ. now rewrite HQ, H.
Qed.

Lemma predicate_without_operator_witness :
  handleArrayQuery exampleLib (TSlice [dale; roger]) "first" = withType Ty.Null.
Proof.
  apply (predicate_without_operator exampleLib (TSlice [dale; roger]) "first");
    reflexivity.
Defined.

(** ** The scenarios of the specification, run on [exampleLib] *)

Example scenario_name_last :
  getByPath exampleLib janet "name.last" = Ok (mkResult Ty.String "" "Prichard" 0%float 0).
Proof. vm_compute. reflexivity. Qed.

Example scenario_children_length :
  Get exampleLib "children: [Sara, Alex, Jack]" "children.#"
  = Ok (mkResult Ty.Number "" "" 3%float 0).
Proof. vm_compute. reflexivity. Qed.

Example scenario_children_index :
  Get exampleLib "children: [Sara, Alex, Jack]" "children.0"
  = Ok (mkResult Ty.String "" "Sara" 0%float 0)
  /\ Get exampleLib "children: [Sara, Alex, Jack]" "children.5" = Ok (withType Ty.Null)
  /\ Get exampleLib "children: [Sara, Alex, Jack]" "children.-1" = Ok (withType Ty.Null).
Proof. repeat split; vm_compute; reflexivity. Qed.

Example scenario_friends_query :
  Get exampleLib
      "friends: [{first: Dale, last: Murphy, age: 44}, {first: Roger, last: Craig, age: 68}]"
      "friends.#(age>50).first"
  = Ok (mkResult Ty.String "" "Roger" 0%float 0).
Proof. vm_compute. reflexivity. Qed.

Example scenario_broadcast :
  Get exampleLib
      "friends: [{first: Dale, last: Murphy, age: 44}, {first: Roger, last: Craig, age: 68}]"
      "friends.#.first"
  = Ok (makeResult exampleLib (TSlice [TString "Dale"; TString "Roger"])).
Proof. vm_compute. reflexivity. Qed.

(** ** The models of [strings] and [strconv] on concrete inputs *)

Example TrimSpace_ex : strings.TrimSpace "  a b  " = "a b".
Proof. reflexivity. Qed.

Example Trim_ex : strings.Trim "'x'" quotes = "x".
Proof. reflexivity. Qed.

Example Split_ex : strings.Split "a..b." "." = ["a"; ""; "b"; ""].
Proof. reflexivity. Qed.

Example SplitN2_ex : strings.SplitN2 "age>=10" ">=" = ["age"; "10"].
Proof. reflexivity. Qed.

Example Atoi_ex :
  strconv.Atoi "-12" = Some (-12)
  /\ strconv.Atoi "1x" = None
  /\ strconv.Atoi "+" = None
  /\ strconv.Atoi "9223372036854775808" = None
  /\ strconv.Atoi "-9223372036854775808" = Some (- 2 ^ 63).
Proof. repeat split; reflexivity. Qed.

Example ParseInt_ex :
  strconv.ParseInt "99999999999999999999x" = (2 ^ 63 - 1, Some strconv.ErrRange)
  /\ strconv.ParseInt "12x" = (0, Some strconv.ErrSyntax).
Proof. split; reflexivity. Qed.

Example FormatInt_ex :
  strconv.FormatInt (-12) = "-12"
  /\ strconv.FormatInt 0 = "0"
  /\ strconv.FormatUint 7 = "7".
Proof. repeat split; reflexivity. Qed.
